(** * Channel page of learn-t3-stack: the client-side chat synchronisation

    A shallow embedding of [src/pages/channels/[id].tsx].  The file holds two
    versions of the page: the first one owns the WebSocket itself (module
    [V1]), the second one takes the connection from a context and keeps an
    optimistic pending message in two refs (module [V2]).

    JavaScript values are embedded as data (module [JS]); React state and refs
    are fields of a state record, closures are the values they captured, and
    the effects of the browser (sockets, timers, console, DOM) are fields of
    the same record. *)

From Stdlib Require Import String Ascii List Bool Arith NArith ZArith Lia.
From Stdlib Require Import Floats.PrimFloat.
Import ListNotations.

Set Implicit Arguments.
Set Warnings "-register-all".

(** ** JavaScript values *)

Module JS.

(** A JavaScript string is a sequence of UTF-16 code units. *)
Definition jsstring := list N.

(** An ASCII literal as a JavaScript string. *)
Definition lit (s : string) : jsstring :=
  map N_of_ascii (list_ascii_of_string s).

Fixpoint str_eqb (a b : jsstring) : bool :=
  match a, b with
  | [], [] => true
  | x :: a', y :: b' => N.eqb x y && str_eqb a' b'
  | _, _ => false
  end.

(** ECMAScript WhiteSpace and LineTerminator code points, the ones
    [String.prototype.trim] strips. *)
Definition isWhiteSpace (c : N) : bool :=
  match c with
  | 0x09 | 0x0A | 0x0B | 0x0C | 0x0D | 0x20 | 0xA0 | 0x1680
  | 0x2028 | 0x2029 | 0x202F | 0x205F | 0x3000 | 0xFEFF => true
  | _ => N.leb 0x2000 c && N.leb c 0x200A
  end%N.

Fixpoint trimStart (s : jsstring) : jsstring :=
  match s with
  | c :: s' => if isWhiteSpace c then trimStart s' else s
  | [] => []
  end.

Definition trimEnd (s : jsstring) : jsstring := rev (trimStart (rev s)).

(** [s.trim()] *)
Definition trim (s : jsstring) : jsstring := trimEnd (trimStart s).

(** Values: what [JSON.parse] builds, and [undefined], which property access
    adds.  Numbers are IEEE doubles. *)
Inductive value : Type :=
| VUndefined
| VNull
| VBool (b : bool)
| VNum (x : float)
| VStr (s : jsstring)
| VArr (items : list value)
| VObj (props : list (jsstring * value)).

Inductive error : Type := SyntaxError | TypeError.

(** Completion of an evaluation: a value, or a thrown exception. *)
Inductive completion (A : Type) : Type :=
| Normal (a : A)
| Throw (e : error).
Arguments Throw {A} e.

Definition bind {A B} (c : completion A) (k : A -> completion B) : completion B :=
  match c with
  | Normal a => k a
  | Throw e => Throw e
  end.

Fixpoint lookup (k : jsstring) (props : list (jsstring * value)) : value :=
  match props with
  | [] => VUndefined
  | (k', v) :: rest => if str_eqb k k' then v else lookup k rest
  end.

(** [v.k] for a key that no prototype defines (the page reads [type], [data],
    [channelId] and [id]): a TypeError on [undefined] and [null], the own
    property of an object, [undefined] on the other values. *)
Definition get (v : value) (k : jsstring) : completion value :=
  match v with
  | VUndefined | VNull => Throw TypeError
  | VObj props => Normal (lookup k props)
  | _ => Normal VUndefined
  end.

(** [a === b] for two values that were built apart (a logged message and a
    freshly parsed frame, a parsed field and a string of the page): primitives
    by value, objects and arrays by reference, hence never equal. *)
Definition strict_eq (a b : value) : bool :=
  match a, b with
  | VUndefined, VUndefined => true
  | VNull, VNull => true
  | VBool x, VBool y => Bool.eqb x y
  | VNum x, VNum y => PrimFloat.eqb x y
  | VStr x, VStr y => str_eqb x y
  | _, _ => false
  end.

(** [arr.some(f)] for a callback that may throw. *)
Fixpoint some (f : value -> completion bool) (arr : list value) : completion bool :=
  match arr with
  | [] => Normal false
  | x :: rest => bind (f x) (fun b => if b then Normal true else some f rest)
  end.

(** [arr.concat(v)]: an array argument is spread, any other is one element. *)
Definition concat (arr : list value) (v : value) : list value :=
  match v with
  | VArr items => arr ++ items
  | _ => arr ++ [v]
  end.

(** JavaScript truthiness of the kinds of value the page tests with [!]. *)
Class Truthy (A : Type) := truthy : A -> bool.

(** A promise, as the object an un-awaited async call evaluates to. *)
Inductive promise (A : Type) : Type := Promise (settled : A).

(** [await p] *)
Definition await {A} (p : promise A) : A := match p with Promise a => a end.

(** Every object is truthy, a promise included. *)
#[export] Instance truthy_promise {A} : Truthy (promise A) := fun _ => true.

(** [null] or [undefined] against an object. *)
#[export] Instance truthy_option {A} : Truthy (option A) :=
  fun o => match o with Some _ => true | None => false end.

End JS.

Import JS.

Declare Scope js_scope.
Delimit Scope js_scope with js.
Notation "x <- c ;; k" := (bind c (fun x => k))
  (at level 61, c at next level, right associativity) : js_scope.
Open Scope js_scope.

(** ** Shared by the server side of both versions *)

Module Server.

(** What [getServerSideProps] returns. *)
Inductive result (P : Type) : Type :=
| Redirect (destination : jsstring) (permanent : bool) (statusCode : option nat)
| NotFound
| Props (props : P).
Arguments NotFound {P}.
Arguments Redirect {P} destination permanent statusCode.

Definition is_redirect {P} (r : completion (result P)) : bool :=
  match r with Normal (Redirect _ _ _) => true | _ => false end.

(** Modelled from the spec: [getServerAuthSession]
    (server/common/get-server-auth-session) is not under src/; it is the
    asynchronous session lookup, so a call evaluates to a promise of the
    session, which the second version of the page awaits. [resolveSession]
    is the session the request's cookies resolve to, [null] when there is
    none. *)
Definition getServerAuthSession {Request Session : Type}
    (resolveSession : Request -> option Session) (ctx : Request)
    : promise (option Session) :=
  Promise (resolveSession ctx).

End Server.

Import Server.

(** ** First version of the page: the component owns the WebSocket *)

Module V1.

(** A [WebSocket] object, named by its creation rank. *)
Definition socket := nat.

(** The component instance and the part of the browser it acts on. *)
Record state : Type := mkState {
  (** [useState]: the composed text, the message log, the reconnect flag and
      the client the message handler is attached to *)
  message : jsstring;
  messages : list value;
  waitingToReconnect : bool;
  wsClient : option socket;
  (** [useRef]: [wsInstance.current] *)
  wsInstance : option socket;
  (** closures: the [messages] that each assigned [onmessage] captured, the
      [waitingToReconnect] that each [onclose] captured (latest first), the
      [client] of the cleanup the socket effect returned, and the
      dependency the socket effect last ran with *)
  onmessage_env : list (socket * list value);
  onclose_env : list (socket * bool);
  cleanup : option socket;
  deps : option bool;
  mounted : bool;
  (** the browser: the underlying connections that exist, the sockets the
      page closed whose close event is still to come, the pending
      [setTimeout] delays (each runs [setWaitingToReconnect(false)]), the
      value of the [#textInput] element, the console, the exceptions that
      escaped a handler *)
  connections : list socket;
  closing : list socket;
  timers : list nat;
  textInput : jsstring;
  console : list string;
  uncaught : list error;
  next_socket : socket;
  (** the server: the [createMessage] calls issued, as (channelId, content) *)
  mutations : list (jsstring * jsstring)
}.

(** Field updates. *)

Definition set_message (x : jsstring) (s : state) : state :=
  {| message := x; messages := messages s; waitingToReconnect := waitingToReconnect s;
     wsClient := wsClient s; wsInstance := wsInstance s; onmessage_env :=
     onmessage_env s; onclose_env := onclose_env s; cleanup := cleanup s; deps := deps
     s; mounted := mounted s; connections := connections s; closing := closing s;
     timers := timers s; textInput := textInput s; console := console s; uncaught :=
     uncaught s; next_socket := next_socket s; mutations := mutations s |}.

Definition set_messages (x : list value) (s : state) : state :=
  {| message := message s; messages := x; waitingToReconnect := waitingToReconnect s;
     wsClient := wsClient s; wsInstance := wsInstance s; onmessage_env :=
     onmessage_env s; onclose_env := onclose_env s; cleanup := cleanup s; deps := deps
     s; mounted := mounted s; connections := connections s; closing := closing s;
     timers := timers s; textInput := textInput s; console := console s; uncaught :=
     uncaught s; next_socket := next_socket s; mutations := mutations s |}.

Definition set_waitingToReconnect (x : bool) (s : state) : state :=
  {| message := message s; messages := messages s; waitingToReconnect := x; wsClient
     := wsClient s; wsInstance := wsInstance s; onmessage_env := onmessage_env s;
     onclose_env := onclose_env s; cleanup := cleanup s; deps := deps s; mounted :=
     mounted s; connections := connections s; closing := closing s; timers := timers
     s; textInput := textInput s; console := console s; uncaught := uncaught s;
     next_socket := next_socket s; mutations := mutations s |}.

Definition set_wsClient (x : option socket) (s : state) : state :=
  {| message := message s; messages := messages s; waitingToReconnect :=
     waitingToReconnect s; wsClient := x; wsInstance := wsInstance s; onmessage_env :=
     onmessage_env s; onclose_env := onclose_env s; cleanup := cleanup s; deps := deps
     s; mounted := mounted s; connections := connections s; closing := closing s;
     timers := timers s; textInput := textInput s; console := console s; uncaught :=
     uncaught s; next_socket := next_socket s; mutations := mutations s |}.

Definition set_wsInstance (x : option socket) (s : state) : state :=
  {| message := message s; messages := messages s; waitingToReconnect :=
     waitingToReconnect s; wsClient := wsClient s; wsInstance := x; onmessage_env :=
     onmessage_env s; onclose_env := onclose_env s; cleanup := cleanup s; deps := deps
     s; mounted := mounted s; connections := connections s; closing := closing s;
     timers := timers s; textInput := textInput s; console := console s; uncaught :=
     uncaught s; next_socket := next_socket s; mutations := mutations s |}.

Definition set_onmessage_env (x : list (socket * list value)) (s : state) : state :=
  {| message := message s; messages := messages s; waitingToReconnect :=
     waitingToReconnect s; wsClient := wsClient s; wsInstance := wsInstance s;
     onmessage_env := x; onclose_env := onclose_env s; cleanup := cleanup s; deps :=
     deps s; mounted := mounted s; connections := connections s; closing := closing s;
     timers := timers s; textInput := textInput s; console := console s; uncaught :=
     uncaught s; next_socket := next_socket s; mutations := mutations s |}.

Definition set_onclose_env (x : list (socket * bool)) (s : state) : state :=
  {| message := message s; messages := messages s; waitingToReconnect :=
     waitingToReconnect s; wsClient := wsClient s; wsInstance := wsInstance s;
     onmessage_env := onmessage_env s; onclose_env := x; cleanup := cleanup s; deps :=
     deps s; mounted := mounted s; connections := connections s; closing := closing s;
     timers := timers s; textInput := textInput s; console := console s; uncaught :=
     uncaught s; next_socket := next_socket s; mutations := mutations s |}.

Definition set_cleanup (x : option socket) (s : state) : state :=
  {| message := message s; messages := messages s; waitingToReconnect :=
     waitingToReconnect s; wsClient := wsClient s; wsInstance := wsInstance s;
     onmessage_env := onmessage_env s; onclose_env := onclose_env s; cleanup := x;
     deps := deps s; mounted := mounted s; connections := connections s; closing :=
     closing s; timers := timers s; textInput := textInput s; console := console s;
     uncaught := uncaught s; next_socket := next_socket s; mutations := mutations s |}.

Definition set_deps (x : option bool) (s : state) : state :=
  {| message := message s; messages := messages s; waitingToReconnect :=
     waitingToReconnect s; wsClient := wsClient s; wsInstance := wsInstance s;
     onmessage_env := onmessage_env s; onclose_env := onclose_env s; cleanup :=
     cleanup s; deps := x; mounted := mounted s; connections := connections s; closing
     := closing s; timers := timers s; textInput := textInput s; console := console s;
     uncaught := uncaught s; next_socket := next_socket s; mutations := mutations s |}.

Definition set_mounted (x : bool) (s : state) : state :=
  {| message := message s; messages := messages s; waitingToReconnect :=
     waitingToReconnect s; wsClient := wsClient s; wsInstance := wsInstance s;
     onmessage_env := onmessage_env s; onclose_env := onclose_env s; cleanup :=
     cleanup s; deps := deps s; mounted := x; connections := connections s; closing :=
     closing s; timers := timers s; textInput := textInput s; console := console s;
     uncaught := uncaught s; next_socket := next_socket s; mutations := mutations s |}.

Definition set_connections (x : list socket) (s : state) : state :=
  {| message := message s; messages := messages s; waitingToReconnect :=
     waitingToReconnect s; wsClient := wsClient s; wsInstance := wsInstance s;
     onmessage_env := onmessage_env s; onclose_env := onclose_env s; cleanup :=
     cleanup s; deps := deps s; mounted := mounted s; connections := x; closing :=
     closing s; timers := timers s; textInput := textInput s; console := console s;
     uncaught := uncaught s; next_socket := next_socket s; mutations := mutations s |}.

Definition set_closing (x : list socket) (s : state) : state :=
  {| message := message s; messages := messages s; waitingToReconnect :=
     waitingToReconnect s; wsClient := wsClient s; wsInstance := wsInstance s;
     onmessage_env := onmessage_env s; onclose_env := onclose_env s; cleanup :=
     cleanup s; deps := deps s; mounted := mounted s; connections := connections s;
     closing := x; timers := timers s; textInput := textInput s; console := console s;
     uncaught := uncaught s; next_socket := next_socket s; mutations := mutations s |}.

Definition set_timers (x : list nat) (s : state) : state :=
  {| message := message s; messages := messages s; waitingToReconnect :=
     waitingToReconnect s; wsClient := wsClient s; wsInstance := wsInstance s;
     onmessage_env := onmessage_env s; onclose_env := onclose_env s; cleanup :=
     cleanup s; deps := deps s; mounted := mounted s; connections := connections s;
     closing := closing s; timers := x; textInput := textInput s; console := console
     s; uncaught := uncaught s; next_socket := next_socket s; mutations := mutations s
     |}.

Definition set_textInput (x : jsstring) (s : state) : state :=
  {| message := message s; messages := messages s; waitingToReconnect :=
     waitingToReconnect s; wsClient := wsClient s; wsInstance := wsInstance s;
     onmessage_env := onmessage_env s; onclose_env := onclose_env s; cleanup :=
     cleanup s; deps := deps s; mounted := mounted s; connections := connections s;
     closing := closing s; timers := timers s; textInput := x; console := console s;
     uncaught := uncaught s; next_socket := next_socket s; mutations := mutations s |}.

Definition set_console (x : list string) (s : state) : state :=
  {| message := message s; messages := messages s; waitingToReconnect :=
     waitingToReconnect s; wsClient := wsClient s; wsInstance := wsInstance s;
     onmessage_env := onmessage_env s; onclose_env := onclose_env s; cleanup :=
     cleanup s; deps := deps s; mounted := mounted s; connections := connections s;
     closing := closing s; timers := timers s; textInput := textInput s; console := x;
     uncaught := uncaught s; next_socket := next_socket s; mutations := mutations s |}.

Definition set_uncaught (x : list error) (s : state) : state :=
  {| message := message s; messages := messages s; waitingToReconnect :=
     waitingToReconnect s; wsClient := wsClient s; wsInstance := wsInstance s;
     onmessage_env := onmessage_env s; onclose_env := onclose_env s; cleanup :=
     cleanup s; deps := deps s; mounted := mounted s; connections := connections s;
     closing := closing s; timers := timers s; textInput := textInput s; console :=
     console s; uncaught := x; next_socket := next_socket s; mutations := mutations s
     |}.

Definition set_next_socket (x : socket) (s : state) : state :=
  {| message := message s; messages := messages s; waitingToReconnect :=
     waitingToReconnect s; wsClient := wsClient s; wsInstance := wsInstance s;
     onmessage_env := onmessage_env s; onclose_env := onclose_env s; cleanup :=
     cleanup s; deps := deps s; mounted := mounted s; connections := connections s;
     closing := closing s; timers := timers s; textInput := textInput s; console :=
     console s; uncaught := uncaught s; next_socket := x; mutations := mutations s |}.

Definition set_mutations (x : list (jsstring * jsstring)) (s : state) : state :=
  {| message := message s; messages := messages s; waitingToReconnect :=
     waitingToReconnect s; wsClient := wsClient s; wsInstance := wsInstance s;
     onmessage_env := onmessage_env s; onclose_env := onclose_env s; cleanup :=
     cleanup s; deps := deps s; mounted := mounted s; connections := connections s;
     closing := closing s; timers := timers s; textInput := textInput s; console :=
     console s; uncaught := uncaught s; next_socket := next_socket s; mutations := x
     |}.

Definition log (line : string) (s : state) : state :=
  set_console (console s ++ [line]) s.

Fixpoint assoc {A} (c : socket) (env : list (socket * A)) : option A :=
  match env with
  | [] => None
  | (c', a) :: rest => if Nat.eqb c c' then Some a else assoc c rest
  end.

Definition mem (c : socket) (l : list socket) : bool := existsb (Nat.eqb c) l.

Definition drop (c : socket) (l : list socket) : list socket :=
  filter (fun c' => negb (Nat.eqb c c')) l.

Section Page.

(** [channel.id], from the page's props. *)
Variable channel_id : jsstring.

(** The component as first rendered, before any effect ran. *)
Definition init : state :=
  {| message := lit ""; messages := []; waitingToReconnect := false; wsClient := None;
     wsInstance := None; onmessage_env := []; onclose_env := []; cleanup := None;
     deps := None; mounted := true; connections := []; closing := []; timers := [];
     textInput := lit ""; console := []; uncaught := []; next_socket := 0;
     mutations := [] |}.

(** [client.onclose] (lines 72-99); [captured] is the [waitingToReconnect] of
    the render whose effect created the client. *)
Definition onclose (captured : bool) (s : state) : state :=
  match wsInstance s with
  | Some _ =>
      let s := log "[WebSocket] WebSocket was closed by Server" s in
      if captured then s
      else
        let s := log "[WebSocket] WebSocket Closed" s in
        let s := set_waitingToReconnect true s in
        let s := set_textInput (lit "") s in
        set_timers (timers s ++ [5000]) s
  | None =>
      log "[WebSocket] WebSocket was closed by App Component unmounting" s
  end.

(** The function the socket effect returns (lines 101-108). [client.close()]
    starts the closing handshake of a connection that exists and does nothing
    on a closed one. *)
Definition run_cleanup (s : state) : state :=
  match cleanup s with
  | None => s
  | Some client =>
      let s := log "[WebSocket] Cleanup WebSocket Connection" s in
      let s := set_wsInstance None s in
      let s := set_wsClient None s in
      let s :=
        if mem client (connections s)
        then set_closing (closing s ++ [client]) (set_connections (drop client (connections s)) s)
        else s in
      set_cleanup None s
  end.

(** The body of the socket effect (lines 52-109): under the two guards it
    makes the socket, stores it in the ref and in the state, assigns
    [onclose] and returns the cleanup. The warm-up [fetch], the scrolling and
    the logging [onerror] and [onopen] act on nothing modelled here. *)
Definition effect_body (s : state) : state :=
  if waitingToReconnect s then set_cleanup None s
  else
    match wsInstance s with
    | None =>
        let client := next_socket s in
        let s := set_next_socket (S client) s in
        let s := set_connections (connections s ++ [client]) s in
        let s := set_wsInstance (Some client) s in
        let s := set_wsClient (Some client) s in
        let s := set_onclose_env ((client, waitingToReconnect s) :: onclose_env s) s in
        set_cleanup (Some client) s
    | Some _ => set_cleanup None s
    end.

(** [useEffect(..., [waitingToReconnect])]: on a changed dependency the
    previous cleanup runs, then the body. *)
Definition socket_effect (s : state) : state :=
  match deps s with
  | Some d =>
      if Bool.eqb d (waitingToReconnect s) then s
      else set_deps (Some (waitingToReconnect s)) (effect_body (run_cleanup s))
  | None => set_deps (Some (waitingToReconnect s)) (effect_body s)
  end.

(** [useEffect(..., [wsClient, messages])] (lines 125-138): assigns
    [onmessage], a closure over the [messages] of this render. *)
Definition message_effect (s : state) : state :=
  match wsClient s with
  | Some client => set_onmessage_env ((client, messages s) :: onmessage_env s) s
  | None => s
  end.

(** The handler assigned at lines 127-136. [captured] is the [messages] of
    the closure, the state [s] holds what [setMessages] updates; [parsed] is
    the outcome of [JSON.parse(event.data)]. *)
Definition onmessage (captured : list value) (parsed : completion value)
    (s : state) : completion state :=
  data <- parsed ;;
  ty <- get data (lit "type") ;;
  if strict_eq ty (VStr (lit "message")) then
    d <- get data (lit "data") ;;
    cid <- get d (lit "channelId") ;;
    if strict_eq cid (VStr channel_id) then
      dup <- some (fun msg =>
                     mid <- get msg (lit "id") ;;
                     did <- get d (lit "id") ;;
                     Normal (strict_eq mid did)) captured ;;
      if negb dup then
        let s := log "message recieved" s in
        Normal (set_messages (concat (messages s) d) s)
      else Normal s
    else Normal s
  else Normal s.

(** [sendMessage] (lines 118-123). *)
Definition sendMessage (s : state) : state :=
  if str_eqb (trim (message s)) (lit "") then s
  else
    let s := set_mutations (mutations s ++ [(channel_id, message s)]) s in
    set_message (lit "") s.

Inductive event : Type :=
| Commit                                       (** React commits a render and runs the effects *)
| QueryData (data : list value)                (** [loadMessagesQuery.data] arrives *)
| Typed (text : jsstring)                      (** the user edits the input *)
| Submit                                       (** the form is submitted *)
| Frame (c : socket) (parsed : completion value) (** a message event on [c] *)
| ServerClose (c : socket)                     (** the connection of [c] drops *)
| CloseEvent (c : socket)                      (** the close event of a socket the page closed *)
| Timeout                                      (** the oldest pending timer fires *)
| Unmount.

(** The close event of socket [c] reaches the handler assigned to it. *)
Definition fire_close (c : socket) (s : state) : state :=
  match assoc c (onclose_env s) with
  | Some captured => onclose captured s
  | None => s
  end.

Definition fire_message (c : socket) (parsed : completion value) (s : state) : state :=
  match assoc c (onmessage_env s) with
  | Some captured =>
      match onmessage captured parsed s with
      | Normal s' => s'
      | Throw e => set_uncaught (uncaught s ++ [e]) s
      end
  | None => s
  end.

(** The input is controlled ([value={message}], line 197): when React
    commits a render it writes the [message] state to the element. *)
Definition controlled_input (s : state) : state := set_textInput (message s) s.

(** One event of the component's life. State updates take effect at once;
    [Commit] is the render that follows them: the element of the controlled
    input is updated, then the effects run. Between an update and the next
    [Commit] every assigned handler still holds what it captured. An edit
    or a submit is taken on the state of the render it follows. *)
Definition step (s : state) (e : event) : state :=
  match e with
  | Commit =>
      if mounted s then message_effect (socket_effect (controlled_input s)) else s
  | QueryData data => if mounted s then set_messages data s else s
  | Typed text => if mounted s then set_message text (set_textInput text s) else s
  | Submit => if mounted s then sendMessage s else s
  | Frame c parsed => if mem c (connections s) then fire_message c parsed s else s
  | ServerClose c =>
      if mem c (connections s)
      then fire_close c (set_connections (drop c (connections s)) s)
      else s
  | CloseEvent c =>
      if mem c (closing s)
      then fire_close c (set_closing (drop c (closing s)) s)
      else s
  | Timeout =>
      match timers s with
      | [] => s
      | _ :: rest =>
          let s := set_timers rest s in
          if mounted s then set_waitingToReconnect false s else s
      end
  | Unmount => if mounted s then set_mounted false (run_cleanup s) else s
  end.

Definition run (s : state) (trace : list event) : state := fold_left step trace s.

(** The spec's connection states, read off the page: it is reconnecting
    while [waitingToReconnect] (the input is disabled and reads
    "Connecting..."), open while the ref holds a socket, and disconnected
    otherwise. *)
Inductive ConnectionState : Type := Disconnected | Open | Reconnecting.

Definition currentState (s : state) : ConnectionState :=
  if waitingToReconnect s then Reconnecting
  else match wsInstance s with Some _ => Open | None => Disconnected end.

End Page.


(** *** The server side of the first version *)

Section Server.

Variables Request Session TextChannel : Type.

(** The session the request's cookies resolve to, [null] when there is none. *)
Variable resolveSession : Request -> option Session.

(** [prisma.textChannel.findUnique({ where: { id } })] *)
Variable findUnique : value -> option TextChannel.

(** [JSON.parse(JSON.stringify(channel))] *)
Variable reserialize : TextChannel -> TextChannel.

(** [getServerSideProps] (lines 212-239): [session] is the call's value, not
    awaited. [params] is the route's parameter object or [undefined]. *)
Definition getServerSideProps (req : Request)
    (params : option (list (jsstring * value))) : completion (result TextChannel) :=
  let session := getServerAuthSession resolveSession req in
  if negb (truthy session) || negb (truthy params)
  then Normal (Redirect (lit "/") false (Some 301))
  else
    match params with
    | None => Throw TypeError
    | Some ps =>
        let channelId := lookup (lit "id") ps in
        match findUnique channelId with
        | None => Normal NotFound
        | Some channel => Normal (Props (reserialize channel))
        end
    end.

End Server.

End V1.

(** ** Second version of the page: optimistic sends *)

Module V2.

Record Author : Type := mkAuthor {
  author_id : jsstring;
  author_name : option jsstring;
  author_image : option jsstring
}.

(** [MessageType], with the fields [sendMessage] fills in. *)
Record MessageType : Type := mkMessage {
  createdTimestamp : Z;
  content : jsstring;
  id : jsstring;
  channelId : jsstring;
  authorId : jsstring;
  author : Author;
  embeds : list value
}.

(** [session.user]. *)
Record SessionUser : Type := mkUser {
  user_id : jsstring;
  user_name : option jsstring;
  user_image : option jsstring
}.

(** The arguments of one [createMessageMutation.mutate] call. *)
Record CreateMessage : Type := mkCreateMessage {
  cm_channelId : jsstring;
  cm_content : jsstring;
  cm_nonce : jsstring
}.

Record state : Type := mkState {
  (** the log [useMessages] returns *)
  messages : list MessageType;
  (** [pendingMessage.current] and [pendingNonce.current], [null] as [None] *)
  pendingMessage : option MessageType;
  pendingNonce : option jsstring;
  (** the [createMessage] calls issued *)
  mutations : list CreateMessage
}.

Definition set_messages (x : list MessageType) (s : state) : state :=
  mkState x (pendingMessage s) (pendingNonce s) (mutations s).
Definition set_pendingMessage (x : option MessageType) (s : state) : state :=
  mkState (messages s) x (pendingNonce s) (mutations s).
Definition set_pendingNonce (x : option jsstring) (s : state) : state :=
  mkState (messages s) (pendingMessage s) x (mutations s).
Definition set_mutations (x : list CreateMessage) (s : state) : state :=
  mkState (messages s) (pendingMessage s) (pendingNonce s) x.

Definition init : state := mkState [] None None [].

(** A ref that holds a string or [null], as a value. *)
Definition ref_value (r : option jsstring) : value :=
  match r with Some x => VStr x | None => VNull end.

Section Page.

(** [channel.id], from the page's props. *)
Variable channel_id : jsstring.

(** [useSession().data?.user], [None] when there is no session or no user. *)
Variable session_user : option SessionUser.

(** The callback handed to [useMessages] (lines 286-291). *)
Definition nonceCallback (msg : MessageType) (nonce : value) (s : state) : state :=
  if strict_eq (ref_value (pendingNonce s)) nonce
  then set_pendingMessage None (set_pendingNonce None s)
  else s.

(** [sendMessage] (lines 294-320). [now] is [new Date()], [uuid] is
    [window.crypto.randomUUID()]. The result is the state and whether
    [{ sent: true }] was returned. *)
Definition sendMessage (msg : jsstring) (now : Z) (uuid : jsstring)
    (s : state) : completion (state * bool) :=
  if str_eqb (trim msg) (lit "") then Normal (s, false)
  else
    match session_user with
    | None => Throw TypeError
    | Some user =>
        let s := set_pendingMessage (Some {|
                   createdTimestamp := now;
                   content := trim msg;
                   id := lit "";
                   channelId := channel_id;
                   authorId := user_id user;
                   author := mkAuthor (user_id user) (user_name user) (user_image user);
                   embeds := [] |}) s in
        let s := set_pendingNonce (Some uuid) s in
        let s := set_mutations (mutations s ++ [mkCreateMessage channel_id msg uuid]) s in
        Normal (s, true)
    end.

(** Modelled from the spec: [hooks/useMessages] is not under src/. Its
    handling of an incoming message follows section 4.2: ignored if
    [msg.channelId] does not match this store's channel; ignored if [msg.id]
    is already present; otherwise the message is appended at the end and the
    page's callback is told its nonce, which removes the matching pending
    entry. *)
Definition onIncomingMessage (msg : MessageType) (nonce : value) (s : state) : state :=
  if negb (str_eqb (channelId msg) channel_id) then s
  else if existsb (fun m => str_eqb (id m) (id msg)) (messages s) then s
  else nonceCallback msg nonce (set_messages (messages s ++ [msg]) s).

(** One [<Message>] element of the rendered list. *)
Record MessageProps : Type := mkProps {
  pending : bool;
  shown : MessageType
}.

(** The message elements of the render (lines 364-369): the log, then the
    pending message when the ref holds one. *)
Definition rendered (s : state) : list MessageProps :=
  map (mkProps false) (messages s)
  ++ match pendingMessage s with
     | Some m => [mkProps true m]
     | None => []
     end.

Inductive event : Type :=
| Send (msg : jsstring) (now : Z) (uuid : jsstring)
| Broadcast (msg : MessageType) (nonce : value)
| MutationSettled (failed : bool).   (** the [createMessage] call returns or fails *)

(** [createMessageMutation] is made and called without [onSuccess],
    [onError] or [onSettled] (lines 274, 311-315): no code of the page runs
    when the call settles. *)
Definition step (s : state) (e : event) : state :=
  match e with
  | Send msg now uuid =>
      match sendMessage msg now uuid s with
      | Normal (s', _) => s'
      | Throw _ => s
      end
  | Broadcast msg nonce => onIncomingMessage msg nonce s
  | MutationSettled _ => s
  end.

Definition run (s : state) (trace : list event) : state := fold_left step trace s.

End Page.

Section Server.

Variables Request Session TextChannel : Type.
Variable resolveSession : Request -> option Session.
Variable findUnique : value -> option TextChannel.
Variable reserialize : TextChannel -> TextChannel.

Record ChatPageServerSideProps : Type := mkServerProps {
  channel : TextChannel;
  serverId : value;
  messageLink : option jsstring
}.

(** [getServerSideProps] of the second version (lines 387-423): the session
    is awaited. *)
Definition getServerSideProps (req : Request)
    (params : option (list (jsstring * value)))
    : completion (result ChatPageServerSideProps) :=
  let session := await (getServerAuthSession resolveSession req) in
  if negb (truthy session) || negb (truthy params)
  then Normal (Redirect (lit "/") false None)
  else
    match params with
    | None => Throw TypeError
    | Some ps =>
        let channelId := lookup (lit "channelId") ps in
        match findUnique channelId with
        | None => Normal NotFound
        | Some channel =>
            Normal (Props (mkServerProps (reserialize channel) (lookup (lit "id") ps) None))
        end
    end.

End Server.

End V2.

(** ** Vocabulary of the properties *)

Definition is_object (v : value) : bool :=
  match v with VObj _ => true | _ => false end.

Definition is_string (v : value) : bool :=
  match v with VStr _ => true | _ => false end.

(** [v.id], [undefined] where the access would throw. *)
Definition id_of (v : value) : value :=
  match get v (lit "id") with Normal i => i | Throw _ => VUndefined end.

(** The entries of a log whose id is the string [i]. *)
Definition has_id (i : jsstring) (v : value) : bool := strict_eq (id_of v) (VStr i).

Definition count_id (i : jsstring) (log : list value) : nat :=
  List.length (filter (has_id i) log).

(** The frame [{ type: "message", data: d }], parsed. *)
Definition message_frame (d : value) : completion value :=
  Normal (VObj [(lit "type", VStr (lit "message")); (lit "data", d)]).

(** Modelled from the spec: the Prisma types [TextMessage] and [User] are not
    under src/. Section 3 gives a Message an [id], a [channelId], an
    [authorId] with an author snapshot, and a [content]. *)
Definition is_TextMessage (v : value) : bool :=
  match v with
  | VObj props =>
      is_string (lookup (lit "id") props)
      && is_string (lookup (lit "channelId") props)
      && is_string (lookup (lit "authorId") props)
      && is_string (lookup (lit "content") props)
      && is_object (lookup (lit "author") props)
  | _ => false
  end.

(** What holds of every state the first version reaches: the cleanup closes
    the socket the ref names; a connection that exists is the one the ref
    names, made by an effect run outside a reconnect wait; its close handler
    captured [false]; only unmounting leaves a socket closing, and only
    one; a timer is pending only while no connection exists and the page
    waits to reconnect. *)
Record Inv (s : V1.state) : Prop := mkInv {
  inv_cleanup : V1.cleanup s = V1.wsInstance s;
  inv_deps : V1.deps s = None -> V1.wsInstance s = None;
  inv_conn :
    V1.connections s = []
    \/ exists c, V1.connections s = [c] /\ V1.wsInstance s = Some c
                 /\ V1.waitingToReconnect s = false /\ V1.mounted s = true
                 /\ V1.deps s = Some false;
  inv_onclose :
    forall c, V1.wsInstance s = Some c -> V1.assoc c (V1.onclose_env s) = Some false;
  inv_closing :
    V1.closing s = []
    \/ (V1.mounted s = false /\ (List.length (V1.closing s) <= 1)%nat);
  inv_unmounted : V1.mounted s = false -> V1.wsInstance s = None;
  inv_timers :
    V1.timers s = []
    \/ (V1.timers s = [5000] /\ V1.connections s = []
        /\ (V1.waitingToReconnect s = true \/ V1.mounted s = false))
}.

(** A log whose entries are all objects, as [fetchMessages] and the handler
    make them. *)
Definition objects (log : list value) : Prop := Forall (fun v => is_object v = true) log.

(** The trace in which React commits before every delivered frame. *)
Definition synchronised (c : V1.socket) (frames : list (completion value)) : list V1.event :=
  flat_map (fun f => [V1.Commit; V1.Frame c f]) frames.

(** [v.channelId], [undefined] where the access would throw. *)
Definition channel_of (v : value) : value :=
  match get v (lit "channelId") with Normal i => i | Throw _ => VUndefined end.

(** No string id names two entries of the log. *)
Definition unique_ids (log : list value) : Prop :=
  forall i, (count_id i log <= 1)%nat.

(** The page is mounted, its message handler goes to the live socket [c],
    and the socket effect has run for the current [waitingToReconnect]. *)
Definition listening (c : V1.socket) (s : V1.state) : Prop :=
  V1.mounted s = true
  /\ V1.wsClient s = Some c
  /\ V1.mem c (V1.connections s) = true
  /\ V1.deps s = Some (V1.waitingToReconnect s).

(** ** Data of the examples *)

Definition general : jsstring := lit "general".

Definition alice : value :=
  VObj [(lit "id", VStr (lit "u1")); (lit "name", VStr (lit "alice")); (lit "image", VNull)].

(** A persisted message of channel [general]. *)
Definition m1 : value :=
  VObj [(lit "id", VStr (lit "m1"));
        (lit "channelId", VStr general);
        (lit "authorId", VStr (lit "u1"));
        (lit "content", VStr (lit "hello"));
        (lit "author", alice)].

(** A payload that only names the channel. *)
Definition stub : value := VObj [(lit "channelId", VStr general)].

Definition alice_user : V2.SessionUser :=
  V2.mkUser (lit "u1") (Some (lit "alice")) None.

(** The pending entry [sendMessage] builds for [alice_user] in [general]. *)
Definition pending_of (text : jsstring) (now : Z) : V2.MessageType :=
  V2.mkMessage now text (lit "") general (lit "u1")
    (V2.mkAuthor (lit "u1") (Some (lit "alice")) None) [].

(** The authoritative copy of "hi" the server broadcasts. *)
Definition m3 : V2.MessageType :=
  V2.mkMessage 3 (lit "hi") (lit "m3") general (lit "u1")
    (V2.mkAuthor (lit "u1") (Some (lit "alice")) None) [].

(** ** The rest of the page *)

(** The compose form the first version renders (lines 192-205): the input
    shows the [message] state, and the input and the button are disabled
    while [waitingToReconnect]. *)
Record FormProps : Type := mkForm {
  input_value : jsstring;
  input_placeholder : jsstring;
  input_disabled : bool;
  button_disabled : bool
}.

Definition render_form (s : V1.state) : FormProps :=
  {| input_value := V1.message s;
     input_placeholder :=
       if V1.waitingToReconnect s then lit "Connecting..." else lit "Write a message...";
     input_disabled := V1.waitingToReconnect s;
     button_disabled := V1.waitingToReconnect s |}.

(** Kinds of event of the first version. *)
Definition is_load (e : V1.event) : bool :=
  match e with V1.QueryData _ => true | _ => false end.

Definition is_timeout (e : V1.event) : bool :=
  match e with V1.Timeout => true | _ => false end.

Definition is_submit (e : V1.event) : bool :=
  match e with V1.Submit => true | _ => false end.

Definition is_input (e : V1.event) : bool :=
  match e with V1.Typed _ | V1.Submit => true | _ => false end.

(** A run in which the channel prop may change, as when the user follows
    a link of the sidebar to a sibling channel: every event comes with the
    channel id that the closure handling it holds, the current one or, for
    a handler assigned before the change, an earlier one. *)
Definition run_any (s : V1.state) (trace : list (jsstring * V1.event)) : V1.state :=
  fold_left (fun s p => V1.step (fst p) s (snd p)) trace s.

(** An object whose [channelId] is one of the ids [chs]. *)
Definition names_channel (chs : list jsstring) (v : value) : Prop :=
  is_object v = true /\ exists ch, In ch chs /\ channel_of v = VStr ch.

(** Every [fetchMessages] result of the trace is a list of objects. *)
Definition loads_hold_objects (trace : list (jsstring * V1.event)) : Prop :=
  Forall (fun p => match snd p with
                   | V1.QueryData data => objects data
                   | _ => True
                   end) trace.

(** The parsed frames on which the handler of the first version throws: a
    payload that did not parse, [null], and a "message" envelope whose
    [data] is missing or [null]. *)
Definition crashes (parsed : completion value) : bool :=
  match parsed with
  | Throw _ => true
  | Normal VUndefined | Normal VNull => true
  | Normal (VObj props) =>
      strict_eq (lookup (lit "type") props) (VStr (lit "message"))
      && match lookup (lit "data") props with
         | VUndefined | VNull => true
         | _ => false
         end
  | Normal _ => false
  end.

(** What the second version itself does to its refs: a send, a call of the
    callback it handed to [useMessages] (made by the hook, with whatever
    message and nonce), a [createMessage] call that settles. *)
Inductive ref_op : Type :=
| RSend (msg : jsstring) (now : Z) (uuid : jsstring)
| RNonce (msg : V2.MessageType) (nonce : value)
| RSettled (failed : bool).

Definition ref_step (ch : jsstring) (user : option V2.SessionUser)
    (s : V2.state) (op : ref_op) : V2.state :=
  match op with
  | RSend msg now uuid => V2.step ch user s (V2.Send msg now uuid)
  | RNonce msg nonce => V2.nonceCallback msg nonce s
  | RSettled failed => V2.step ch user s (V2.MutationSettled failed)
  end.

Definition ref_run (ch : jsstring) (user : option V2.SessionUser)
    (s : V2.state) (ops : list ref_op) : V2.state :=
  fold_left (ref_step ch user) ops s.

(** The two pending refs agree with each other and with the last call
    issued: both empty, or an entry without id, of channel [ch], that shows
    the trimmed content of the last [createMessage] call and whose nonce is
    that call's. *)
Definition refs_agree (ch : jsstring) (s : V2.state) : Prop :=
  match V2.pendingMessage s, V2.pendingNonce s with
  | None, None => True
  | Some m, Some n =>
      V2.id m = lit "" /\ V2.channelId m = ch
      /\ exists earlier call,
           V2.mutations s = earlier ++ [call]
           /\ V2.cm_nonce call = n /\ V2.cm_channelId call = ch
           /\ V2.content m = trim (V2.cm_content call)
           /\ trim (V2.cm_content call) <> lit ""
  | _, _ => False
  end.

Definition is_unmount (e : V1.event) : bool :=
  match e with V1.Unmount => true | _ => false end.

(** Whether the next render may make a socket without a timer firing
    first: the socket effect has not run yet, or it last ran while waiting
    and the wait is over. *)
Definition may_connect (s : V1.state) : nat :=
  match V1.deps s with
  | None => 1
  | Some true => if V1.waitingToReconnect s then 0 else 1
  | Some false => 0
  end.

(** ** Strings *)

Unset Implicit Arguments.

Lemma str_eqb_refl (a : jsstring) : str_eqb a a = true.
Proof.
  induction a as [|x a IH]; simpl; [reflexivity|].
  now rewrite N.eqb_refl, IH.
Qed.

Lemma str_eqb_eq (a b : jsstring) : str_eqb a b = true <-> a = b.
Proof.
  split; [|intros ->; apply str_eqb_refl].
  revert b; induction a as [|x a IH]; intros [|y b]; simpl; try discriminate; auto.
  intros H; apply andb_true_iff in H as [Hx Hab].
  apply N.eqb_eq in Hx; apply IH in Hab; congruence.
Qed.

Lemma str_eqb_nil (a : jsstring) : str_eqb a (lit "") = true <-> a = [].
Proof. apply (str_eqb_eq a []). Qed.

Lemma trimStart_blank (s : jsstring) :
  forallb isWhiteSpace s = true -> trimStart s = [].
Proof.
  induction s as [|c s IH]; simpl; [reflexivity|].
  intros H; apply andb_true_iff in H as [Hc Hs]; rewrite Hc; auto.
Qed.

Lemma trimStart_nil_blank (s : jsstring) :
  trimStart s = [] -> forallb isWhiteSpace s = true.
Proof.
  induction s as [|c s IH]; simpl; [reflexivity|].
  destruct (isWhiteSpace c); [auto | discriminate].
Qed.

(** A string trims to the empty string exactly when it is all white space. *)
Lemma trim_blank_iff (s : jsstring) :
  trim s = [] <-> forallb isWhiteSpace s = true.
Proof.
  unfold trim, trimEnd; split.
  - intros H. apply trimStart_nil_blank.
    destruct (trimStart s) as [|c t] eqn:E; [reflexivity|].
    assert (Hr : trimStart (rev (c :: t)) = []).
    { apply (f_equal (@rev N)) in H. rewrite rev_involutive in H. exact H. }
    apply trimStart_nil_blank in Hr.
    rewrite forallb_forall in Hr.
    assert (Hc : isWhiteSpace c = true) by (apply Hr, in_rev; rewrite rev_involutive; now left).
    clear - E Hc. exfalso.
    induction s as [|x s IH]; simpl in E; [discriminate|].
    destruct (isWhiteSpace x) eqn:Ex; [auto|].
    injection E as -> _. congruence.
  - intros H. now rewrite (trimStart_blank _ H).
Qed.

(** ** The connection of the first version *)

Lemma drop_single (c : V1.socket) : V1.drop c [c] = [].
Proof. unfold V1.drop; simpl. now rewrite Nat.eqb_refl. Qed.

Lemma mem_single (c c' : V1.socket) : V1.mem c [c'] = true -> c = c'.
Proof.
  unfold V1.mem; simpl. rewrite orb_false_r. apply Nat.eqb_eq.
Qed.

Lemma Inv_init : Inv V1.init.
Proof. split; simpl; auto; discriminate. Qed.

Lemma drop_length (c : V1.socket) (l : list V1.socket) :
  (List.length (V1.drop c l) <= List.length l)%nat.
Proof. apply filter_length_le. Qed.

(** Fields the connection invariant does not read may change freely. *)
Lemma Inv_frame (s s' : V1.state) :
  V1.waitingToReconnect s' = V1.waitingToReconnect s ->
  V1.wsInstance s' = V1.wsInstance s ->
  V1.cleanup s' = V1.cleanup s ->
  V1.deps s' = V1.deps s ->
  V1.mounted s' = V1.mounted s ->
  V1.connections s' = V1.connections s ->
  V1.closing s' = V1.closing s ->
  V1.onclose_env s' = V1.onclose_env s ->
  V1.timers s' = V1.timers s ->
  Inv s -> Inv s'.
Proof.
  intros Hw Hi Hc Hd Hm Hn Hg He Ht [I1 I2 I3 I4 I5 I6 I7].
  split; rewrite ?Hw, ?Hi, ?Hc, ?Hd, ?Hm, ?Hn, ?Hg, ?He, ?Ht; auto.
Qed.

Lemma Inv_onclose (captured : bool) (s : V1.state) :
  V1.connections s = [] -> (V1.wsInstance s <> None -> V1.timers s = []) ->
  Inv s -> Inv (V1.onclose captured s).
Proof.
  intros Hn Ht [I1 I2 I3 I4 I5 I6 I7]. unfold V1.onclose.
  destruct (V1.wsInstance s) eqn:Hi; [destruct captured|];
    split; simpl; rewrite ?Hi; auto.
  right. rewrite Ht by discriminate. auto.
Qed.

Lemma Inv_fire_close (c : V1.socket) (s : V1.state) :
  V1.connections s = [] -> (V1.wsInstance s <> None -> V1.timers s = []) ->
  Inv s -> Inv (V1.fire_close c s).
Proof.
  intros Hn Ht HI. unfold V1.fire_close.
  destruct (V1.assoc c (V1.onclose_env s)); auto using Inv_onclose.
Qed.

Lemma Inv_effect_body (s : V1.state) (d : bool) :
  d = V1.waitingToReconnect s ->
  V1.wsInstance s = None -> V1.cleanup s = None -> V1.connections s = [] ->
  V1.mounted s = true -> V1.closing s = [] ->
  (V1.timers s = [] \/ (V1.timers s = [5000] /\ V1.waitingToReconnect s = true)) ->
  Inv (V1.set_deps (Some d) (V1.effect_body s)).
Proof.
  intros -> Hi Hc Hn Hm Hg Ht. unfold V1.effect_body.
  destruct (V1.waitingToReconnect s) eqn:Hw.
  - split; simpl; auto; try (rewrite Hi; discriminate).
    destruct Ht as [Ht|[Ht _]]; auto.
  - rewrite Hi. split; simpl; rewrite ?Hn, ?Hw; auto.
    + discriminate.
    + right. exists (V1.next_socket s). simpl. auto.
    + intros c [= <-]. now rewrite Nat.eqb_refl.
    + rewrite Hm. discriminate.
    + destruct Ht as [Ht|[_ Ht]]; [auto | discriminate].
Qed.

Lemma Inv_socket_effect (s : V1.state) :
  V1.mounted s = true -> Inv s -> Inv (V1.socket_effect s).
Proof.
  intros Hm HI. pose proof HI as [I1 I2 I3 I4 I5 I6 I7].
  assert (Hg : V1.closing s = []) by (destruct I5 as [|[? _]]; congruence).
  assert (Ht : V1.timers s = []
               \/ (V1.timers s = [5000] /\ V1.waitingToReconnect s = true)).
  { destruct I7 as [|(? & _ & [|])]; auto. congruence. }
  unfold V1.socket_effect. destruct (V1.deps s) as [d|] eqn:Hd.
  - destruct (Bool.eqb d (V1.waitingToReconnect s)) eqn:E; [assumption|].
    assert (Hn : V1.connections s = []).
    { destruct I3 as [|(c & _ & _ & Hw & _ & Hd')]; [assumption|].
      rewrite Hw in E. injection Hd' as ->. discriminate. }
    apply Inv_effect_body; unfold V1.run_cleanup;
      destruct (V1.cleanup s) as [client|] eqn:Hc; simpl; rewrite ?Hn; simpl; auto.
  - apply Inv_effect_body; auto.
    + rewrite I1; auto.
    + destruct I3 as [|(c & _ & Hi & _)]; [assumption|]. rewrite I2 in Hi; [discriminate|reflexivity].
Qed.

Lemma Inv_message_effect (s : V1.state) : Inv s -> Inv (V1.message_effect s).
Proof.
  unfold V1.message_effect. destruct (V1.wsClient s); [|auto].
  apply Inv_frame; reflexivity.
Qed.

(** Every path through [V1.onmessage] that returns, from [E], the equation of
    its result. *)
Ltac onmessage_paths E :=
  revert E; unfold V1.onmessage, bind;
  repeat match goal with
         | |- context [match ?x with _ => _ end] => destruct x; try discriminate
         end;
  intros [= <-].

Lemma Inv_fire_message (ch : jsstring) (c : V1.socket) (parsed : completion value)
    (s : V1.state) :
  Inv s -> Inv (V1.fire_message ch c parsed s).
Proof.
  unfold V1.fire_message. destruct (V1.assoc c (V1.onmessage_env s)) as [captured|]; [|auto].
  destruct (V1.onmessage ch captured parsed s) as [s'|e] eqn:E.
  - onmessage_paths E; auto; apply Inv_frame; reflexivity.
  - apply Inv_frame; reflexivity.
Qed.

Lemma Inv_run_cleanup_unmount (s : V1.state) :
  V1.mounted s = true -> Inv s -> Inv (V1.set_mounted false (V1.run_cleanup s)).
Proof.
  intros Hm [I1 I2 I3 I4 I5 I6 I7].
  assert (Hg : V1.closing s = []) by (destruct I5 as [|[? _]]; congruence).
  unfold V1.run_cleanup.
  destruct (V1.cleanup s) as [client|] eqn:Hc.
  - destruct I3 as [Hn|(c & Hn & Hi & _)].
    + simpl. rewrite Hn. split; simpl; auto; try discriminate.
      destruct I7 as [|(? & _ & _)]; auto.
    + assert (client = c) by congruence. subst client.
      simpl. rewrite Hn. unfold V1.mem. simpl. rewrite Nat.eqb_refl. simpl.
      split; simpl; auto; try discriminate.
      * right. rewrite Hg. simpl. auto.
      * destruct I7 as [|(_ & Hn' & _)]; [auto | congruence].
  - destruct I3 as [Hn|(c & Hn & Hi & _)]; [|congruence].
    split; simpl; auto; try congruence.
    destruct I7 as [|(? & _ & _)]; auto.
Qed.

Lemma Inv_step (ch : jsstring) (s : V1.state) (e : V1.event) :
  Inv s -> Inv (V1.step ch s e).
Proof.
  intros HI. destruct e as [|data|text| |c parsed|c|c| |]; simpl.
  - destruct (V1.mounted s) eqn:Hm; [|assumption].
    apply Inv_message_effect, Inv_socket_effect; [exact Hm|].
    revert HI; apply Inv_frame; reflexivity.
  - destruct (V1.mounted s); [|assumption]. revert HI; apply Inv_frame; reflexivity.
  - destruct (V1.mounted s); [|assumption]. revert HI; apply Inv_frame; reflexivity.
  - destruct (V1.mounted s); [|assumption]. unfold V1.sendMessage.
    destruct (str_eqb _ _); [assumption|]. revert HI; apply Inv_frame; reflexivity.
  - destruct (V1.mem c (V1.connections s)); [|assumption]. now apply Inv_fire_message.
  - destruct (V1.mem c (V1.connections s)) eqn:Hc; [|assumption].
    pose proof HI as [I1 I2 I3 I4 I5 I6 I7].
    destruct I3 as [Hn|(c' & Hn & _)]; [rewrite Hn in Hc; discriminate|].
    assert (Ht : V1.timers s = []) by (destruct I7 as [|(_ & ? & _)]; [auto | congruence]).
    rewrite Hn in Hc |- *. apply mem_single in Hc as ->.
    apply Inv_fire_close; simpl; [apply drop_single | auto |].
    split; simpl; auto. left. apply drop_single.
  - destruct (V1.mem c (V1.closing s)) eqn:Hc; [|assumption].
    pose proof HI as [I1 I2 I3 I4 I5 I6 I7].
    assert (Hm : V1.mounted s = false).
    { destruct I5 as [Hg|[? _]]; [rewrite Hg in Hc; discriminate|assumption]. }
    assert (Hn : V1.connections s = []).
    { destruct I3 as [|(c' & _ & _ & _ & Hm' & _)]; [assumption|congruence]. }
    apply Inv_fire_close; simpl; [assumption | rewrite (I6 Hm); congruence |].
    split; simpl; auto.
    right. split; [assumption|].
    destruct I5 as [Hg|[_ Hg]]; [rewrite Hg; simpl; lia|].
    pose proof (drop_length c (V1.closing s)). lia.
  - destruct (V1.timers s) as [|t rest] eqn:Ht; [assumption|]. simpl.
    pose proof HI as [I1 I2 I3 I4 I5 I6 I7].
    destruct (V1.mounted s) eqn:Hm; split; simpl; rewrite ?Hm; auto.
    + destruct I3 as [|(c & Hn & Hi & Hw & _ & Hd)]; [auto|].
      right. exists c. auto.
    + left. destruct I7 as [|(H5 & _)]; congruence.
    + left. destruct I7 as [|(H5 & _)]; congruence.
  - destruct (V1.mounted s) eqn:Hm; [|assumption]. now apply Inv_run_cleanup_unmount.
Qed.

Lemma Inv_run (ch : jsstring) (trace : list V1.event) (s : V1.state) :
  Inv s -> Inv (V1.run ch s trace).
Proof.
  revert s. induction trace as [|e trace IH]; intros s HI; simpl; [assumption|].
  apply IH, Inv_step, HI.
Qed.

(** C5. At every point of every run of the first version at most one
    underlying connection exists, a socket the page closed whose close event
    is still to come counted in; and running the socket effect's body while
    a connection exists opens nothing: the connections, the ref, the client
    and the next socket are as before. *)
Theorem single_connection (ch : jsstring) (trace : list V1.event) :
  let s := V1.run ch V1.init trace in
  (List.length (V1.connections s) + List.length (V1.closing s) <= 1)%nat
  /\ (forall c, In c (V1.connections s) ->
        V1.connections (V1.effect_body s) = V1.connections s
        /\ V1.wsInstance (V1.effect_body s) = V1.wsInstance s
        /\ V1.wsClient (V1.effect_body s) = V1.wsClient s
        /\ V1.next_socket (V1.effect_body s) = V1.next_socket s).
Proof.
  intros s. destruct (Inv_run ch trace V1.init Inv_init) as [_ _ I3 _ I5 _ _].
  fold s in I3, I5.
  destruct I3 as [Hn|(c & Hn & Hi & Hw & Hm & _)]; rewrite Hn; simpl.
  - split; [|intros c []]. destruct I5 as [->|[_ Hg]]; simpl; lia.
  - split.
    + destruct I5 as [->|[Hm' _]]; [simpl; lia | congruence].
    + intros _ _. unfold V1.effect_body. rewrite Hw, Hi. simpl. auto.
Qed.

(** The guard of the socket effect alone: with a socket in the ref, the body
    creates none, in any state. *)
Lemma effect_body_guard (s : V1.state) (c : V1.socket) :
  V1.wsInstance s = Some c -> V1.effect_body s = V1.set_cleanup None s.
Proof.
  intros Hi. unfold V1.effect_body. rewrite Hi. now destruct (V1.waitingToReconnect s).
Qed.

(** After a drop, the render that follows, the timer and the next render:
    one new socket, the next in rank, is the connection. *)
Lemma reconnect_after_drop (ch : jsstring) (s : V1.state) (c : V1.socket) :
  V1.connections s = [c] -> V1.wsInstance s = Some c -> V1.cleanup s = Some c ->
  V1.waitingToReconnect s = false -> V1.mounted s = true -> V1.deps s = Some false ->
  V1.timers s = [] -> V1.assoc c (V1.onclose_env s) = Some false ->
  let s' := V1.run ch s [V1.ServerClose c; V1.Commit; V1.Timeout; V1.Commit] in
  V1.connections s' = [V1.next_socket s]
  /\ V1.wsInstance s' = Some (V1.next_socket s)
  /\ V1.timers s' = []
  /\ V1.currentState s' = V1.Open.
Proof.
  intros Hn Hi Hc Hw Hm Hd Ht Ha.
  destruct s; simpl in Hn, Hi, Hc, Hw, Hm, Hd, Ht, Ha; subst.
  cbn [V1.run fold_left V1.next_socket].
  remember (V1.step ch _ (V1.ServerClose c)) as s1 eqn:E1.
  cbn in E1. rewrite Nat.eqb_refl in E1. cbn in E1.
  unfold V1.fire_close in E1. cbn in E1. rewrite Ha in E1. cbn in E1.
  subst s1. cbn. auto.
Qed.

(** C4. In every state the first version reaches, for the connection [c]
    that exists: when the connection drops, the page is waiting to
    reconnect and exactly one timer of 5000 ms is pending; once React has
    rendered, the timer has fired and React has rendered again, exactly one
    new connection exists and no timer is left. When instead the page
    unmounts and the close event of [c] then arrives, the page is
    disconnected, no connection exists and no timer was added. *)
Theorem close_transitions (ch : jsstring) (trace : list V1.event) (c : V1.socket) :
  let s := V1.run ch V1.init trace in
  V1.mem c (V1.connections s) = true ->
  (let s' := V1.step ch s (V1.ServerClose c) in
   V1.currentState s' = V1.Reconnecting
   /\ V1.waitingToReconnect s' = true
   /\ V1.timers s' = [5000]
   /\ V1.connections s' = [])
  /\
  (let s' := V1.run ch s [V1.ServerClose c; V1.Commit; V1.Timeout; V1.Commit] in
   V1.currentState s' = V1.Open
   /\ V1.connections s' = [V1.next_socket s]
   /\ V1.timers s' = [])
  /\
  (let s' := V1.step ch (V1.step ch s V1.Unmount) (V1.CloseEvent c) in
   V1.currentState s' = V1.Disconnected
   /\ V1.wsInstance s' = None /\ V1.wsClient s' = None
   /\ V1.timers s' = V1.timers s
   /\ V1.connections s' = []).
Proof.
  intros s Hc. destruct (Inv_run ch trace V1.init Inv_init) as [I1 _ I3 I4 I5 _ I7].
  fold s in I1, I3, I4, I5, I7.
  destruct I3 as [Hn|(c' & Hn & Hi & Hw & Hm & Hd)]; [rewrite Hn in Hc; discriminate|].
  rewrite Hn in Hc. apply mem_single in Hc as ->.
  assert (Hg : V1.closing s = []) by (destruct I5 as [|[? _]]; congruence).
  assert (Ht : V1.timers s = []) by (destruct I7 as [|(_ & ? & _)]; [auto | congruence]).
  split; [|split].
  - simpl. rewrite Hn. unfold V1.mem; simpl. rewrite Nat.eqb_refl; simpl.
    unfold V1.fire_close; simpl. rewrite (I4 _ Hi).
    unfold V1.onclose; simpl. rewrite Hi, Ht. unfold V1.currentState; simpl.
    auto.
  - assert (Hcl : V1.cleanup s = Some c') by congruence.
    destruct (reconnect_after_drop ch s c' Hn Hi Hcl Hw Hm Hd Ht (I4 _ Hi))
      as (H1 & _ & H3 & H4).
    auto.
  - simpl. rewrite Hm. unfold V1.run_cleanup. rewrite I1, Hi. simpl.
    rewrite Hn, Hg. unfold V1.mem; simpl. rewrite Nat.eqb_refl; simpl.
    rewrite Nat.eqb_refl; simpl.
    unfold V1.fire_close; simpl. unfold V1.currentState.
    destruct (V1.assoc c' (V1.onclose_env s)) as [w|]; simpl; rewrite ?Hw; simpl; auto.
Qed.

Lemma close_transitions_witness :
  V1.mem 0 (V1.connections (V1.run general V1.init [V1.Commit])) = true
  /\ V1.timers (V1.step general (V1.run general V1.init [V1.Commit]) (V1.ServerClose 0))
     = [5000]
  /\ V1.connections
       (V1.run general (V1.run general V1.init [V1.Commit])
          [V1.ServerClose 0; V1.Commit; V1.Timeout; V1.Commit])
     = [V1.next_socket (V1.run general V1.init [V1.Commit])]
  /\ V1.currentState
       (V1.step general (V1.step general (V1.run general V1.init [V1.Commit]) V1.Unmount)
          (V1.CloseEvent 0))
     = V1.Disconnected.
Proof.
  assert (H : V1.mem 0 (V1.connections (V1.run general V1.init [V1.Commit])) = true)
    by (vm_compute; reflexivity).
  split; [exact H|].
  destruct (close_transitions general [V1.Commit] 0 H)
    as ((_ & _ & Ht & _) & (_ & Hn & _) & (Hd & _)).
  split; [exact Ht | split; [exact Hn | exact Hd]].
Defined.

(** Inside the close handler, before React renders again: the page waits
    to reconnect and is still mounted, the element of the input was emptied
    (line 93), and the composed text in the [message] state, the log and the
    issued [createMessage] calls are as before. *)
Lemma drop_keeps_state (ch : jsstring) (trace : list V1.event) (c : V1.socket) :
  let s := V1.run ch V1.init trace in
  V1.mem c (V1.connections s) = true ->
  let s' := V1.step ch s (V1.ServerClose c) in
  V1.textInput s' = lit ""
  /\ V1.message s' = V1.message s
  /\ V1.messages s' = V1.messages s
  /\ V1.mutations s' = V1.mutations s
  /\ V1.waitingToReconnect s' = true
  /\ V1.mounted s' = true.
Proof.
  intros s Hc. destruct (Inv_run ch trace V1.init Inv_init) as [_ _ I3 I4 _ _ _]. fold s in I3, I4.
  destruct I3 as [Hn|(c' & Hn & Hi & _ & Hm & _)]; [rewrite Hn in Hc; discriminate|].
  rewrite Hn in Hc. apply mem_single in Hc as ->.
  simpl. rewrite Hn. unfold V1.mem; simpl. rewrite Nat.eqb_refl; simpl.
  unfold V1.fire_close; simpl. rewrite (I4 _ Hi).
  unfold V1.onclose; simpl. rewrite Hi. simpl. auto 10.
Qed.

(** ** The message handler of the first version *)

Lemma strict_eq_str (v : value) (x : jsstring) :
  strict_eq v (VStr x) = true <-> v = VStr x.
Proof.
  destruct v; simpl; try (split; [discriminate | congruence]).
  rewrite str_eqb_eq. split; congruence.
Qed.

Lemma get_object (v : value) (k : jsstring) :
  is_object v = true -> get v k = Normal (match v with VObj p => lookup k p | _ => VUndefined end).
Proof. destruct v; simpl; congruence. Qed.

(** On a log of objects [messages.some(...)] does not throw: it says whether
    an entry has the id of [d]. *)
Lemma some_same_id (d : value) (log : list value) :
  objects log -> is_object d = true ->
  some (fun msg => mid <- get msg (lit "id") ;;
                   did <- get d (lit "id") ;;
                   Normal (strict_eq mid did)) log
  = Normal (existsb (fun msg => strict_eq (id_of msg) (id_of d)) log).
Proof.
  intros Hlog Hd. destruct d as [| | | | | |p]; try discriminate.
  induction Hlog as [|msg log Hmsg _ IH]; simpl; [reflexivity|].
  destruct msg as [| | | | | |q]; try discriminate. simpl.
  unfold id_of at 1 2. simpl.
  destruct (strict_eq (lookup (lit "id") q) (lookup (lit "id") p)); [reflexivity | exact IH].
Qed.

(** What one run of the handler does, on a log of objects: it throws, or
    leaves the state as it is, or appends the payload, an object of this
    channel whose id no captured entry has. *)
Lemma onmessage_cases (ch : jsstring) (captured : list value)
    (parsed : completion value) (s : V1.state) :
  objects captured ->
  (exists e, V1.onmessage ch captured parsed s = Throw e)
  \/ V1.onmessage ch captured parsed s = Normal s
  \/ exists d,
       is_object d = true
       /\ channel_of d = VStr ch
       /\ existsb (fun msg => strict_eq (id_of msg) (id_of d)) captured = false
       /\ V1.onmessage ch captured parsed s
          = Normal (V1.set_messages (V1.messages s ++ [d]) (V1.log "message recieved" s)).
Proof.
  intros Hlog. unfold V1.onmessage.
  destruct parsed as [data|e]; simpl; [|left; eauto].
  destruct (get data (lit "type")) as [ty|e]; simpl; [|left; eauto].
  destruct (strict_eq ty (VStr (lit "message"))); [|right; left; reflexivity].
  destruct (get data (lit "data")) as [d|e]; simpl; [|left; eauto].
  destruct (get d (lit "channelId")) as [cid|e] eqn:Hcid; simpl; [|left; eauto].
  destruct (strict_eq cid (VStr ch)) eqn:Hch; [|right; left; reflexivity].
  apply strict_eq_str in Hch. subst cid.
  assert (Hd : is_object d = true) by (destruct d; simpl in *; congruence).
  rewrite (some_same_id d captured Hlog Hd). simpl.
  destruct (existsb _ captured) eqn:Hdup; simpl; [right; left; reflexivity|].
  right; right. exists d. unfold channel_of. rewrite Hcid.
  repeat split; auto. destruct d; try discriminate. reflexivity.
Qed.

Lemma socket_effect_settled (s : V1.state) :
  V1.deps s = Some (V1.waitingToReconnect s) -> V1.socket_effect s = s.
Proof.
  intros Hd. unfold V1.socket_effect. rewrite Hd. now rewrite Bool.eqb_reflx.
Qed.

(** A commit followed by a frame runs the handler on the log of that commit. *)
Lemma sync_delivery_eq (ch : jsstring) (c : V1.socket) (f : completion value) (s : V1.state) :
  listening c s ->
  V1.run ch s [V1.Commit; V1.Frame c f]
  = match V1.onmessage ch (V1.messages s) f
            (V1.message_effect (V1.controlled_input s)) with
    | Normal s' => s'
    | Throw e => V1.set_uncaught (V1.uncaught s ++ [e])
                   (V1.message_effect (V1.controlled_input s))
    end.
Proof.
  intros (Hm & Hc & Hn & Hd). simpl.
  rewrite Hm, (socket_effect_settled (V1.controlled_input s) Hd).
  unfold V1.message_effect. simpl. rewrite Hc. simpl. rewrite Hn.
  unfold V1.fire_message. simpl. now rewrite Nat.eqb_refl.
Qed.

(** The first half of C1 for a handler that React re-assigned after the last
    update: a message frame is appended at the end when its payload is of
    this channel and no logged entry has its id, and ignored otherwise. *)
Lemma sync_message_frame (ch : jsstring) (c : V1.socket) (d : value) (s : V1.state) :
  listening c s -> objects (V1.messages s) ->
  V1.messages (V1.run ch s [V1.Commit; V1.Frame c (message_frame d)])
  = if strict_eq (channel_of d) (VStr ch)
       && negb (existsb (fun msg => strict_eq (id_of msg) (id_of d)) (V1.messages s))
    then V1.messages s ++ [d]
    else V1.messages s.
Proof.
  intros Hl Hobj. rewrite (sync_delivery_eq ch c (message_frame d) s Hl).
  destruct Hl as (_ & Hc & _). unfold V1.message_effect; simpl; rewrite Hc.
  unfold V1.onmessage, message_frame. simpl.
  unfold channel_of. destruct (get d (lit "channelId")) as [cid|e] eqn:Hcid; simpl.
  - destruct (strict_eq cid (VStr ch)) eqn:Hch; simpl; [|reflexivity].
    apply strict_eq_str in Hch. subst cid.
    assert (Hd : is_object d = true) by (destruct d; simpl in *; congruence).
    rewrite (some_same_id d (V1.messages s) Hobj Hd). simpl.
    destruct (existsb _ _); simpl; [reflexivity|].
    destruct d; try discriminate. reflexivity.
  - reflexivity.
Qed.

Lemma sync_delivery (ch : jsstring) (c : V1.socket) (f : completion value) (s : V1.state) :
  listening c s -> objects (V1.messages s) ->
  let s' := V1.run ch s [V1.Commit; V1.Frame c f] in
  listening c s'
  /\ (V1.messages s' = V1.messages s
      \/ exists d, is_object d = true
                   /\ existsb (fun msg => strict_eq (id_of msg) (id_of d)) (V1.messages s) = false
                   /\ V1.messages s' = V1.messages s ++ [d]).
Proof.
  intros Hl Hobj s'. unfold s'. rewrite (sync_delivery_eq ch c f s Hl).
  pose proof Hl as (Hm & Hc & Hn & Hd).
  set (s1 := V1.message_effect (V1.controlled_input s)).
  assert (Hl' : listening c s1).
  { unfold s1, V1.message_effect. simpl. rewrite Hc. exact Hl. }
  assert (Hmsg : V1.messages s1 = V1.messages s).
  { unfold s1, V1.message_effect. simpl. now rewrite Hc. }
  destruct (onmessage_cases ch (V1.messages s) f s1 Hobj)
    as [[e ->] | [-> | (d & Hd1 & _ & Hd3 & ->)]].
  - split; [exact Hl'|]. left. exact Hmsg.
  - split; [exact Hl'|]. left. exact Hmsg.
  - split; [exact Hl'|]. right. exists d. simpl. now rewrite Hmsg.
Qed.

Lemma count_id_app (i : jsstring) (log : list value) (d : value) :
  count_id i (log ++ [d]) = (count_id i log + if has_id i d then 1 else 0)%nat.
Proof.
  unfold count_id. rewrite filter_app, length_app. simpl.
  now destruct (has_id i d).
Qed.

Lemma count_id_absent (i : jsstring) (log : list value) (d : value) :
  existsb (fun msg => strict_eq (id_of msg) (id_of d)) log = false ->
  has_id i d = true -> count_id i log = 0%nat.
Proof.
  unfold count_id, has_id. intros Hex Hd. apply strict_eq_str in Hd. rewrite Hd in Hex.
  induction log as [|msg log IH]; simpl in *; [reflexivity|].
  apply orb_false_iff in Hex as [Hmsg Hex]. rewrite Hmsg. auto.
Qed.

Lemma count_id_present (i : jsstring) (log : list value) :
  existsb (has_id i) log = true -> (1 <= count_id i log)%nat.
Proof.
  unfold count_id. induction log as [|msg log IH]; simpl; [discriminate|].
  destruct (has_id i msg); simpl; [lia | exact IH].
Qed.

Lemma objects_app (log : list value) (d : value) :
  objects log -> is_object d = true -> objects (log ++ [d]).
Proof. intros Hl Hd. apply Forall_app. split; [exact Hl | now constructor]. Qed.

(** The second half of C1 for such a handler: however the frames repeat,
    no string id ends up twice in the log, and counts never go down. *)
Lemma synchronised_log (ch : jsstring) (c : V1.socket) (frames : list (completion value)) :
  forall s, listening c s -> objects (V1.messages s) -> unique_ids (V1.messages s) ->
  let s' := V1.run ch s (synchronised c frames) in
  listening c s' /\ objects (V1.messages s') /\ unique_ids (V1.messages s')
  /\ forall i, (count_id i (V1.messages s) <= count_id i (V1.messages s'))%nat.
Proof.
  induction frames as [|f frames IH]; intros s Hl Hobj Huniq; [simpl; auto|].
  destruct (sync_delivery ch c f s Hl Hobj) as [Hl1 Hmsg1].
  change (V1.run ch s (synchronised c (f :: frames)))
    with (V1.run ch (V1.run ch s [V1.Commit; V1.Frame c f]) (synchronised c frames)).
  set (s1 := V1.run ch s [V1.Commit; V1.Frame c f]) in *.
  assert (H1 : objects (V1.messages s1) /\ unique_ids (V1.messages s1)
               /\ forall i, (count_id i (V1.messages s) <= count_id i (V1.messages s1))%nat).
  { destruct Hmsg1 as [-> | (d & Hd & Hex & ->)]; [auto|].
    split; [now apply objects_app|]. split.
    - intros i. rewrite count_id_app. destruct (has_id i d) eqn:Hi.
      + rewrite (count_id_absent i _ d Hex Hi). lia.
      + specialize (Huniq i). lia.
    - intros i. rewrite count_id_app. lia. }
  destruct H1 as (Hobj1 & Huniq1 & Hle1).
  destruct (IH s1 Hl1 Hobj1 Huniq1) as (Hl' & Hobj' & Huniq' & Hle').
  split; [exact Hl'|]. split; [exact Hobj'|]. split; [exact Huniq'|].
  intros i. specialize (Hle1 i). specialize (Hle' i). lia.
Qed.

(** With such a handler a message of this channel that was delivered, once
    or many times among any frames, is in the log exactly once. *)
Lemma synchronised_exactly_once (ch : jsstring) (c : V1.socket)
    (frames : list (completion value)) (d : value) (i : jsstring) (s : V1.state) :
  listening c s -> objects (V1.messages s) -> unique_ids (V1.messages s) ->
  In (message_frame d) frames -> channel_of d = VStr ch -> id_of d = VStr i ->
  count_id i (V1.messages (V1.run ch s (synchronised c frames))) = 1%nat.
Proof.
  intros Hl Hobj Huniq Hin Hch Hid.
  destruct (synchronised_log ch c frames s Hl Hobj Huniq) as (_ & _ & Hu & _).
  specialize (Hu i). cut (1 <= count_id i (V1.messages (V1.run ch s (synchronised c frames))))%nat; [lia|].
  clear Hu. revert s Hl Hobj Huniq.
  induction frames as [|f frames IH]; intros s Hl Hobj Huniq; [destruct Hin|].
  change (V1.run ch s (synchronised c (f :: frames)))
    with (V1.run ch (V1.run ch s [V1.Commit; V1.Frame c f]) (synchronised c frames)).
  destruct (synchronised_log ch c [f] s Hl Hobj Huniq) as (Hl1 & Hobj1 & Huniq1 & _).
  change (V1.run ch s (synchronised c [f])) with (V1.run ch s [V1.Commit; V1.Frame c f]) in *.
  destruct Hin as [-> | Hin]; [|now apply IH].
  destruct (synchronised_log ch c frames _ Hl1 Hobj1 Huniq1) as (_ & _ & _ & Hle).
  specialize (Hle i). cut (1 <= count_id i (V1.messages (V1.run ch s [V1.Commit; V1.Frame c (message_frame d)])))%nat; [lia|].
  rewrite (sync_message_frame ch c d s Hl Hobj), Hch, Hid.
  replace (strict_eq (VStr ch) (VStr ch)) with true by (symmetry; now apply strict_eq_str).
  simpl. destruct (existsb _ (V1.messages s)) eqn:Hex; simpl.
  - now apply count_id_present.
  - rewrite count_id_app. unfold has_id. rewrite Hid.
    replace (strict_eq (VStr i) (VStr i)) with true by (symmetry; now apply strict_eq_str). lia.
Qed.

Lemma synchronised_exactly_once_witness :
  listening 0 (V1.run general V1.init [V1.Commit])
  /\ count_id (lit "m1")
       (V1.messages
          (V1.run general (V1.run general V1.init [V1.Commit])
             (synchronised 0 [message_frame m1; message_frame m1])))
     = 1%nat.
Proof.
  assert (Hl : listening 0 (V1.run general V1.init [V1.Commit]))
    by (repeat split; vm_compute; reflexivity).
  assert (Hobj : objects (V1.messages (V1.run general V1.init [V1.Commit])))
    by constructor.
  assert (Huniq : unique_ids (V1.messages (V1.run general V1.init [V1.Commit])))
    by (intros i; apply Nat.le_0_l).
  assert (Hch : channel_of m1 = VStr general) by (vm_compute; reflexivity).
  assert (Hid : id_of m1 = VStr (lit "m1")) by (vm_compute; reflexivity).
  split; [exact Hl|].
  exact (synchronised_exactly_once general 0 [message_frame m1; message_frame m1] m1
           (lit "m1") (V1.run general V1.init [V1.Commit])
           Hl Hobj Huniq (or_introl eq_refl) Hch Hid).
Defined.

(** C1 on the code: two deliveries of [m1] with no commit between them both
    pass the check against the captured log, and both are appended. *)
Example stale_handler_logs_twice :
  V1.messages (V1.run general V1.init
                 [V1.Commit; V1.Frame 0 (message_frame m1); V1.Frame 0 (message_frame m1)])
  = [m1; m1]
  /\ count_id (lit "m1")
       (V1.messages (V1.run general V1.init
                 [V1.Commit; V1.Frame 0 (message_frame m1); V1.Frame 0 (message_frame m1)]))
     = 2%nat.
Proof. split; vm_compute; reflexivity. Qed.

(** A frame, whatever it holds, leaves the connection alone. *)
Lemma frame_keeps_connection (ch : jsstring) (c : V1.socket) (parsed : completion value)
    (s : V1.state) :
  let s' := V1.step ch s (V1.Frame c parsed) in
  V1.connections s' = V1.connections s /\ V1.closing s' = V1.closing s
  /\ V1.wsInstance s' = V1.wsInstance s /\ V1.wsClient s' = V1.wsClient s
  /\ V1.waitingToReconnect s' = V1.waitingToReconnect s.
Proof.
  simpl. destruct (V1.mem c (V1.connections s)); [|auto].
  unfold V1.fire_message. destruct (V1.assoc c (V1.onmessage_env s)) as [captured|]; [|auto].
  destruct (V1.onmessage ch captured parsed s) as [s'|e] eqn:E; [|simpl; auto].
  onmessage_paths E; simpl; auto.
Qed.

(** C8, as the code has it. A payload that fails to parse makes the handler
    throw: the log and the console are as before and the connection stays.
    A parsed object whose type is not "message" is ignored. A parsed
    "message" frame is appended whenever its payload names this channel and
    has an id that no captured entry has, whatever else it holds or lacks. *)
Theorem frame_handling (ch : jsstring) (c : V1.socket) (captured : list value)
    (s : V1.state) :
  objects captured ->
  (forall e, V1.onmessage ch captured (Throw e) s = Throw e
             /\ let s' := V1.step ch s (V1.Frame c (Throw e)) in
                V1.messages s' = V1.messages s /\ V1.console s' = V1.console s
                /\ V1.connections s' = V1.connections s)
  /\ (forall props,
        strict_eq (lookup (lit "type") props) (VStr (lit "message")) = false ->
        V1.onmessage ch captured (Normal (VObj props)) s = Normal s)
  /\ (forall d,
        channel_of d = VStr ch ->
        existsb (fun msg => strict_eq (id_of msg) (id_of d)) captured = false ->
        V1.onmessage ch captured (message_frame d) s
        = Normal (V1.set_messages (V1.messages s ++ [d]) (V1.log "message recieved" s))).
Proof.
  intros Hobj. split; [|split].
  - intros e. split; [reflexivity|].
    simpl. destruct (V1.mem c (V1.connections s)); [|auto].
    unfold V1.fire_message. destruct (V1.assoc c (V1.onmessage_env s)); simpl; auto.
  - intros props Hty. unfold V1.onmessage. simpl. now rewrite Hty.
  - intros d Hch Hex. unfold V1.onmessage, message_frame. simpl.
    unfold channel_of in Hch.
    destruct (get d (lit "channelId")) as [cid|e] eqn:Hcid; [|discriminate]. subst cid. simpl.
    rewrite str_eqb_refl.
    assert (Hd : is_object d = true) by (destruct d; simpl in *; congruence).
    rewrite (some_same_id d captured Hobj Hd), Hex. simpl.
    destruct d; try discriminate. reflexivity.
Qed.

Lemma frame_handling_witness :
  objects []
  /\ V1.onmessage general [] (message_frame stub) V1.init
     = Normal (V1.set_messages [stub] (V1.log "message recieved" V1.init)).
Proof.
  assert (H : objects []) by constructor.
  split; [exact H|].
  destruct (frame_handling general 0 [] V1.init H) as (_ & _ & Happ).
  exact (Happ stub eq_refl eq_refl).
Defined.

(** C8, as the spec has it, fails: a payload that is no message (it has no
    id, author or content) but names the channel is put in the log. *)
Lemma malformed_payload_reaches_log :
  is_TextMessage stub = false
  /\ V1.messages (V1.run general V1.init [V1.Commit; V1.Frame 0 (message_frame stub)])
     = [stub].
Proof. split; vm_compute; reflexivity. Qed.

(** ** Sending *)

(** C7. A send whose content is empty after trimming changes nothing in
    either version of the page: no [createMessage] call is issued, and in
    the second version no pending entry is made and nothing is returned. *)
Theorem blank_send_rejected (ch : jsstring) (user : option V2.SessionUser)
    (msg : jsstring) (now : Z) (uuid : jsstring) (s1 : V1.state) (s2 : V2.state) :
  trim msg = lit "" ->
  V1.message s1 = msg ->
  V1.sendMessage ch s1 = s1
  /\ V1.mutations (V1.sendMessage ch s1) = V1.mutations s1
  /\ V2.sendMessage ch user msg now uuid s2 = Normal (s2, false)
  /\ V2.step ch user s2 (V2.Send msg now uuid) = s2.
Proof.
  intros Hblank Hmsg.
  assert (H1 : V1.sendMessage ch s1 = s1).
  { unfold V1.sendMessage. rewrite Hmsg, Hblank. reflexivity. }
  assert (H2 : V2.sendMessage ch user msg now uuid s2 = Normal (s2, false)).
  { unfold V2.sendMessage. rewrite Hblank. reflexivity. }
  repeat split; [exact H1 | now rewrite H1 | exact H2 | simpl; now rewrite H2].
Qed.

Lemma blank_send_rejected_witness :
  trim (lit "   ") = lit ""
  /\ V2.sendMessage general (Some alice_user) (lit "   ") 0 (lit "n1") V2.init
     = Normal (V2.init, false).
Proof.
  split; [reflexivity|].
  destruct (blank_send_rejected general (Some alice_user) (lit "   ") 0 (lit "n1")
              (V1.set_message (lit "   ") V1.init) V2.init eq_refl eq_refl)
    as (_ & _ & H & _).
  exact H.
Defined.

(** The two contents the spec names. *)
Example blank_sends :
  V2.run general (Some alice_user) V2.init
    [V2.Send (lit "") 0 (lit "n1"); V2.Send (lit "   ") 1 (lit "n2")] = V2.init
  /\ V1.run general V1.init [V1.Commit; V1.Submit; V1.Typed (lit "   "); V1.Submit]
     = V1.run general V1.init [V1.Commit; V1.Typed (lit "   ")].
Proof. split; vm_compute; reflexivity. Qed.

Lemma trim_nonblank (msg : jsstring) :
  trim msg <> lit "" -> str_eqb (trim msg) (lit "") = false.
Proof.
  intros H. destruct (str_eqb (trim msg) (lit "")) eqn:E; [|reflexivity].
  apply str_eqb_nil in E. contradiction.
Qed.

(** What a send of non-blank content by a signed-in user does. *)
Lemma sendMessage_accepts (ch : jsstring) (user : V2.SessionUser) (msg : jsstring)
    (now : Z) (uuid : jsstring) (s : V2.state) :
  trim msg <> lit "" ->
  V2.sendMessage ch (Some user) msg now uuid s
  = Normal (V2.mkState (V2.messages s)
              (Some (V2.mkMessage now (trim msg) (lit "") ch (V2.user_id user)
                       (V2.mkAuthor (V2.user_id user) (V2.user_name user) (V2.user_image user))
                       []))
              (Some uuid)
              (V2.mutations s ++ [V2.mkCreateMessage ch msg uuid]),
            true).
Proof.
  intros H. unfold V2.sendMessage. rewrite (trim_nonblank msg H). reflexivity.
Qed.

(** C2. A send of non-blank content shows one pending element after the
    log; the broadcast of this channel that carries the send's nonce and a
    new id puts the authoritative message in that place and empties the
    pending refs: the rendered list is the old log followed by that one
    message, as long as before. *)
Theorem broadcast_resolves_pending (ch : jsstring) (user : V2.SessionUser)
    (msg : jsstring) (now : Z) (uuid : jsstring) (bmsg : V2.MessageType) (s : V2.state) :
  trim msg <> lit "" ->
  V2.channelId bmsg = ch ->
  existsb (fun m => str_eqb (V2.id m) (V2.id bmsg)) (V2.messages s) = false ->
  let s1 := V2.step ch (Some user) s (V2.Send msg now uuid) in
  let s2 := V2.step ch (Some user) s1 (V2.Broadcast bmsg (VStr uuid)) in
  (exists entry, V2.content entry = trim msg
                 /\ V2.rendered s1 = map (V2.mkProps false) (V2.messages s)
                                     ++ [V2.mkProps true entry])
  /\ V2.rendered s2 = map (V2.mkProps false) (V2.messages s) ++ [V2.mkProps false bmsg]
  /\ V2.pendingMessage s2 = None /\ V2.pendingNonce s2 = None
  /\ List.length (V2.rendered s2) = List.length (V2.rendered s1).
Proof.
  intros Hmsg Hch Hnew s1 s2. unfold s2, s1. simpl.
  rewrite (sendMessage_accepts ch user msg now uuid s Hmsg).
  unfold V2.onIncomingMessage, V2.nonceCallback, V2.rendered. simpl.
  rewrite Hch, str_eqb_refl, Hnew. simpl. rewrite str_eqb_refl. simpl.
  split; [eexists; split; [|reflexivity]; reflexivity|].
  rewrite map_app. simpl. rewrite app_nil_r.
  repeat split. rewrite !length_app. reflexivity.
Qed.

Lemma broadcast_resolves_pending_witness :
  trim (lit "hi") <> lit ""
  /\ V2.rendered
       (V2.run general (Some alice_user) V2.init
          [V2.Send (lit "hi") 2 (lit "n1"); V2.Broadcast m3 (VStr (lit "n1"))])
     = [V2.mkProps false m3].
Proof.
  assert (H : trim (lit "hi") <> lit "") by discriminate.
  split; [exact H|].
  destruct (broadcast_resolves_pending general alice_user (lit "hi") 2 (lit "n1") m3 V2.init H eq_refl eq_refl)
    as (_ & Hr & _).
  exact Hr.
Defined.

(** C3, as the code has it. A send of non-blank content overwrites the one
    pending slot: whatever the refs held, afterwards they hold the new entry
    and the new nonce only, and one pending element is rendered. *)
Theorem send_overwrites_pending (ch : jsstring) (user : V2.SessionUser)
    (msg : jsstring) (now : Z) (uuid : jsstring) (s : V2.state) :
  trim msg <> lit "" ->
  let s' := V2.step ch (Some user) s (V2.Send msg now uuid) in
  let entry := V2.mkMessage now (trim msg) (lit "") ch (V2.user_id user)
                 (V2.mkAuthor (V2.user_id user) (V2.user_name user) (V2.user_image user)) [] in
  V2.pendingMessage s' = Some entry
  /\ V2.pendingNonce s' = Some uuid
  /\ V2.messages s' = V2.messages s
  /\ V2.mutations s' = V2.mutations s ++ [V2.mkCreateMessage ch msg uuid]
  /\ V2.rendered s' = map (V2.mkProps false) (V2.messages s) ++ [V2.mkProps true entry].
Proof.
  intros Hmsg s' entry. unfold s'. simpl.
  rewrite (sendMessage_accepts ch user msg now uuid s Hmsg). repeat split.
Qed.

Lemma send_overwrites_pending_witness :
  trim (lit "b") <> lit ""
  /\ V2.pendingNonce
       (V2.run general (Some alice_user) V2.init
          [V2.Send (lit "a") 1 (lit "n1"); V2.Send (lit "b") 2 (lit "n2")])
     = Some (lit "n2").
Proof.
  assert (H : trim (lit "b") <> lit "") by discriminate.
  split; [exact H|].
  destruct (send_overwrites_pending general alice_user (lit "b") 2 (lit "n2")
              (V2.run general (Some alice_user) V2.init [V2.Send (lit "a") 1 (lit "n1")]) H)
    as (_ & Hn & _).
  exact Hn.
Defined.

(** C3, as the spec has it, fails: with "a" still unresolved, sending "b"
    leaves one pending element, that of "b"; two calls are in flight and the
    broadcast that answers "a" finds nothing to resolve. *)
Lemma second_send_drops_first :
  V2.rendered
    (V2.run general (Some alice_user) V2.init
       [V2.Send (lit "a") 1 (lit "n1"); V2.Send (lit "b") 2 (lit "n2")])
  = [V2.mkProps true (pending_of (lit "b") 2)]
  /\ List.length
       (V2.mutations
          (V2.run general (Some alice_user) V2.init
             [V2.Send (lit "a") 1 (lit "n1"); V2.Send (lit "b") 2 (lit "n2")])) = 2%nat
  /\ V2.nonceCallback m3 (VStr (lit "n1"))
       (V2.run general (Some alice_user) V2.init
          [V2.Send (lit "a") 1 (lit "n1"); V2.Send (lit "b") 2 (lit "n2")])
     = V2.run general (Some alice_user) V2.init
          [V2.Send (lit "a") 1 (lit "n1"); V2.Send (lit "b") 2 (lit "n2")].
Proof. repeat split; vm_compute; reflexivity. Qed.

(** C9, as the code has it. When [createMessage] calls settle, failed or
    not, the page runs nothing: the state, with its pending entry and nonce,
    and the rendered elements are as before. *)
Theorem settled_call_changes_nothing (ch : jsstring) (user : option V2.SessionUser)
    (outcomes : list bool) (s : V2.state) :
  let s' := V2.run ch user s (map V2.MutationSettled outcomes) in
  s' = s
  /\ V2.pendingMessage s' = V2.pendingMessage s
  /\ V2.pendingNonce s' = V2.pendingNonce s
  /\ V2.rendered s' = V2.rendered s.
Proof.
  assert (H : V2.run ch user s (map V2.MutationSettled outcomes) = s).
  { induction outcomes as [|o outcomes IH]; simpl; [reflexivity | exact IH]. }
  simpl. rewrite H. auto.
Qed.

(** C9, as the spec has it, fails: after the call for "hi" failed the entry
    is rendered as it is after the call succeeded, pending and nothing
    else. *)
Lemma failed_send_looks_pending :
  V2.rendered
    (V2.run general (Some alice_user) V2.init
       [V2.Send (lit "hi") 2 (lit "n1"); V2.MutationSettled true])
  = [V2.mkProps true (pending_of (lit "hi") 2)]
  /\ V2.run general (Some alice_user) V2.init
       [V2.Send (lit "hi") 2 (lit "n1"); V2.MutationSettled true]
     = V2.run general (Some alice_user) V2.init
       [V2.Send (lit "hi") 2 (lit "n1"); V2.MutationSettled false].
Proof. split; vm_compute; reflexivity. Qed.

(** ** The server side *)

(** C10. In the first version the session is a promise, hence truthy: the
    redirect is taken exactly when the route parameters are absent, whatever
    the request's session is, and it is the 301 redirect to "/". *)
Theorem unawaited_session_never_redirects
    (Request Session TextChannel : Type)
    (resolveSession : Request -> option Session)
    (findUnique : value -> option TextChannel)
    (reserialize : TextChannel -> TextChannel)
    (req : Request) (params : option (list (jsstring * value))) :
  truthy (getServerAuthSession resolveSession req) = true
  /\ is_redirect (V1.getServerSideProps resolveSession findUnique reserialize req params)
     = negb (truthy params)
  /\ V1.getServerSideProps resolveSession findUnique reserialize req None
     = Normal (Redirect (lit "/") false (Some 301)).
Proof.
  split; [reflexivity|]. split; [|reflexivity].
  unfold V1.getServerSideProps. destruct params as [ps|]; simpl; [|reflexivity].
  now destruct (findUnique _).
Qed.

(** The second version awaits the session: there a request without a session
    is redirected. *)
Lemma awaited_session_redirects
    (Request Session TextChannel : Type)
    (resolveSession : Request -> option Session)
    (findUnique : value -> option TextChannel)
    (reserialize : TextChannel -> TextChannel)
    (req : Request) (params : option (list (jsstring * value))) :
  is_redirect (V2.getServerSideProps resolveSession findUnique reserialize req params)
  = negb (truthy (resolveSession req)) || negb (truthy params).
Proof.
  unfold V2.getServerSideProps. simpl.
  destruct (resolveSession req), params as [ps|]; simpl; try reflexivity.
  now destruct (findUnique _).
Qed.

(** An unauthenticated request with route parameters, in both versions. *)
Example unauthenticated_request :
  V1.getServerSideProps (fun _ : unit => @None unit) (fun _ => Some general) (fun c => c)
    tt (Some [(lit "id", VStr (lit "c1"))])
  = Normal (Props general)
  /\ V2.getServerSideProps (fun _ : unit => @None unit) (fun _ => Some general) (fun c => c)
       tt (Some [(lit "channelId", VStr (lit "c1"))])
     = Normal (Redirect (lit "/") false None).
Proof. split; vm_compute; reflexivity. Qed.

(** ** More on the message handler *)

(** Destructs every test on the way through an effect or a handler. *)
Ltac all_paths :=
  repeat match goal with
         | |- context [match ?x with _ => _ end] => destruct x; simpl
         end.

(** A run of the handler that returns leaves the state as it is or appends
    one object of this channel, whatever log it captured. *)
Lemma onmessage_result (ch : jsstring) (captured : list value)
    (parsed : completion value) (s s' : V1.state) :
  V1.onmessage ch captured parsed s = Normal s' ->
  s' = s
  \/ exists d, is_object d = true /\ channel_of d = VStr ch
               /\ s' = V1.set_messages (V1.messages s ++ [d]) (V1.log "message recieved" s).
Proof.
  unfold V1.onmessage.
  destruct parsed as [data|e]; simpl; [|discriminate].
  destruct (get data (lit "type")) as [ty|e]; simpl; [|discriminate].
  destruct (strict_eq ty (VStr (lit "message"))); [|intros [= <-]; now left].
  destruct (get data (lit "data")) as [d|e]; simpl; [|discriminate].
  destruct (get d (lit "channelId")) as [cid|e] eqn:Hcid; simpl; [|discriminate].
  destruct (strict_eq cid (VStr ch)) eqn:Hch; [|intros [= <-]; now left].
  apply strict_eq_str in Hch. subst cid.
  destruct (some _ captured) as [dup|e]; simpl; [|discriminate].
  destruct dup; simpl; intros [= <-]; [now left|].
  right. exists d. unfold channel_of. rewrite Hcid.
  destruct d; simpl in Hcid; try discriminate. auto.
Qed.

(** Closes "the completion is a throw" against a boolean that computed. *)
Ltac throws_or_not :=
  split;
  [ intros [? ?]; first [discriminate | reflexivity]
  | intros ?; first [discriminate | eauto] ].

(** The handler throws exactly on the frames [crashes] lists, when the log
    it captured holds objects: then nothing else in a frame, and nothing in
    the log, makes it throw. *)
Theorem handler_throws_iff (ch : jsstring) (captured : list value)
    (parsed : completion value) (s : V1.state) :
  objects captured ->
  (exists e, V1.onmessage ch captured parsed s = Throw e) <-> crashes parsed = true.
Proof.
  intros Hobj. unfold V1.onmessage, crashes.
  destruct parsed as [data|e]; simpl; [|throws_or_not].
  destruct data as [| | | | | |props]; simpl; try throws_or_not.
  destruct (strict_eq (lookup (lit "type") props) (VStr (lit "message"))); simpl;
    [|throws_or_not].
  destruct (lookup (lit "data") props) as [| | | | | |dprops] eqn:Hd; simpl;
    try throws_or_not.
  destruct (strict_eq (lookup (lit "channelId") dprops) (VStr ch)); [|throws_or_not].
  pose proof (some_same_id (VObj dprops) captured Hobj eq_refl) as Hsome.
  simpl in Hsome. rewrite Hsome. simpl.
  destruct (existsb _ captured); simpl; throws_or_not.
Qed.

Lemma handler_throws_iff_witness :
  objects [m1]
  /\ ((exists e, V1.onmessage general [m1] (Normal VNull) V1.init = Throw e)
      <-> crashes (Normal VNull) = true).
Proof.
  assert (H : objects [m1]) by (repeat constructor).
  split; [exact H|].
  exact (handler_throws_iff general [m1] (Normal VNull) V1.init H).
Defined.

(** One event other than a load leaves the log as it is or appends one
    object of this channel. *)
Lemma step_log (ch : jsstring) (s : V1.state) (e : V1.event) :
  is_load e = false ->
  V1.messages (V1.step ch s e) = V1.messages s
  \/ exists d, is_object d = true /\ channel_of d = VStr ch
               /\ V1.messages (V1.step ch s e) = V1.messages s ++ [d].
Proof.
  intros Hload. destruct e as [|data|text| |c parsed|c|c| |]; try discriminate; simpl.
  - destruct (V1.mounted s); [|now left]. left.
    unfold V1.message_effect, V1.socket_effect, V1.effect_body, V1.run_cleanup.
    repeat match goal with
           | |- context [match ?x with _ => _ end] => destruct x; simpl
           end; reflexivity.
  - destruct (V1.mounted s); now left.
  - destruct (V1.mounted s); [|now left]. left. unfold V1.sendMessage.
    now destruct (str_eqb _ _).
  - destruct (V1.mem c (V1.connections s)); [|now left].
    unfold V1.fire_message. destruct (V1.assoc c (V1.onmessage_env s)) as [captured|]; [|now left].
    destruct (V1.onmessage ch captured parsed s) as [s'|err] eqn:E; [|now left].
    destruct (onmessage_result ch captured parsed s s' E) as [->|(d & Hd & Hch & ->)];
      [now left|].
    right. exists d. auto.
  - destruct (V1.mem c (V1.connections s)); [|now left]. left.
    unfold V1.fire_close, V1.onclose; simpl.
    repeat match goal with
           | |- context [match ?x with _ => _ end] => destruct x; simpl
           end; reflexivity.
  - destruct (V1.mem c (V1.closing s)); [|now left]. left.
    unfold V1.fire_close, V1.onclose; simpl.
    repeat match goal with
           | |- context [match ?x with _ => _ end] => destruct x; simpl
           end; reflexivity.
  - left. destruct (V1.timers s); [reflexivity|]. simpl. now destruct (V1.mounted s).
  - destruct (V1.mounted s); [|now left]. left. unfold V1.run_cleanup.
    repeat match goal with
           | |- context [match ?x with _ => _ end] => destruct x; simpl
           end; reflexivity.
Qed.

(** Between two loads the log only grows at its end, by one object at
    most per event, each naming a channel id that a closure of the page
    held: no event removes, replaces or reorders an entry, however stale
    the handler and its channel id are. *)
Theorem log_grows_between_loads (trace : list (jsstring * V1.event)) (s : V1.state) :
  forallb (fun p => negb (is_load (snd p))) trace = true ->
  exists tail,
    V1.messages (run_any s trace) = V1.messages s ++ tail
    /\ Forall (names_channel (map fst trace)) tail
    /\ (List.length tail <= List.length trace)%nat.
Proof.
  revert s. induction trace as [|[ch e] trace IH]; intros s Hno; simpl.
  - exists []. rewrite app_nil_r. split; [reflexivity|]. split; [constructor | simpl; lia].
  - simpl in Hno. apply andb_true_iff in Hno as [He Hno]. apply negb_true_iff in He.
    destruct (IH (V1.step ch s e) Hno) as (tail & Heq & Hch & Hlen).
    assert (Hch' : Forall (names_channel (ch :: map fst trace)) tail).
    { apply (Forall_impl _ (P := names_channel (map fst trace))); [|exact Hch].
      intros d (Hd & ch' & Hin & Hdc). split; [exact Hd|]. exists ch'. split; [now right | exact Hdc]. }
    unfold run_any in Heq.
    destruct (step_log ch s e He) as [Hs|(d & Hd & Hdc & Hs)]; rewrite Hs in Heq.
    + exists tail. split; [exact Heq|]. split; [exact Hch' | lia].
    + exists (d :: tail). rewrite <- app_assoc in Heq.
      split; [exact Heq|]. split; [|simpl; lia].
      constructor; [|exact Hch']. split; [exact Hd|]. exists ch. split; [now left | exact Hdc].
Qed.

Lemma log_grows_between_loads_witness :
  forallb (fun p => negb (is_load (snd p)))
    [(general, V1.Commit); (lit "random", V1.Frame 0 (message_frame m1));
     (general, V1.Frame 0 (message_frame m1))] = true
  /\ exists tail,
       V1.messages
         (run_any V1.init
            [(general, V1.Commit); (lit "random", V1.Frame 0 (message_frame m1));
             (general, V1.Frame 0 (message_frame m1))])
       = V1.messages V1.init ++ tail
       /\ Forall
            (names_channel
               (map fst
                  [(general, V1.Commit); (lit "random", V1.Frame 0 (message_frame m1));
                   (general, V1.Frame 0 (message_frame m1))])) tail
       /\ (List.length tail
           <= List.length
                [(general, V1.Commit); (lit "random", V1.Frame 0 (message_frame m1));
                 (general, V1.Frame 0 (message_frame m1))])%nat.
Proof.
  split; [reflexivity|].
  exact (log_grows_between_loads
           [(general, V1.Commit); (lit "random", V1.Frame 0 (message_frame m1));
            (general, V1.Frame 0 (message_frame m1))] V1.init eq_refl).
Defined.

(** One event leaves the assigned handlers as they are, or it is a render
    that assigns one more, which captures the log of that moment. *)
Lemma step_handlers (ch : jsstring) (s : V1.state) (e : V1.event) :
  V1.onmessage_env (V1.step ch s e) = V1.onmessage_env s
  \/ exists c, V1.onmessage_env (V1.step ch s e) = (c, V1.messages s) :: V1.onmessage_env s.
Proof.
  destruct e as [|data|text| |c parsed|c|c| |]; simpl.
  - destruct (V1.mounted s); [|now left].
    unfold V1.message_effect, V1.socket_effect, V1.effect_body, V1.run_cleanup,
      V1.controlled_input.
    all_paths; first [now left | right; eexists; reflexivity].
  - destruct (V1.mounted s); now left.
  - destruct (V1.mounted s); now left.
  - destruct (V1.mounted s); [|now left]. left. unfold V1.sendMessage.
    now destruct (str_eqb _ _).
  - left. destruct (V1.mem c (V1.connections s)); [|reflexivity].
    unfold V1.fire_message. destruct (V1.assoc c (V1.onmessage_env s)) as [captured|]; [|reflexivity].
    destruct (V1.onmessage ch captured parsed s) as [s'|err] eqn:E; [|reflexivity].
    destruct (onmessage_result ch captured parsed s s' E) as [->|(d & _ & _ & ->)]; reflexivity.
  - left. destruct (V1.mem c (V1.connections s)); [|reflexivity].
    unfold V1.fire_close, V1.onclose; simpl. all_paths; reflexivity.
  - left. destruct (V1.mem c (V1.closing s)); [|reflexivity].
    unfold V1.fire_close, V1.onclose; simpl. all_paths; reflexivity.
  - left. destruct (V1.timers s); [reflexivity|]. simpl. now destruct (V1.mounted s).
  - left. destruct (V1.mounted s); [|reflexivity]. unfold V1.run_cleanup.
    all_paths; reflexivity.
Qed.

(** When every fetched list holds objects, the log holds only objects at
    every point, and so does every log a handler captured, whichever
    channel ids the closures hold: the handler's scan of the log never
    meets an entry it cannot read. *)
Theorem log_holds_objects (trace : list (jsstring * V1.event)) :
  loads_hold_objects trace ->
  objects (V1.messages (run_any V1.init trace))
  /\ Forall (fun handler => objects (snd handler))
       (V1.onmessage_env (run_any V1.init trace)).
Proof.
  assert (H : forall s,
             objects (V1.messages s) ->
             Forall (fun handler => objects (snd handler)) (V1.onmessage_env s) ->
             loads_hold_objects trace ->
             objects (V1.messages (run_any s trace))
             /\ Forall (fun handler => objects (snd handler))
                  (V1.onmessage_env (run_any s trace))).
  { induction trace as [|[ch e] trace IH]; intros s Hs Henv Hl; simpl; [auto|].
    inversion Hl as [|p trace' He Hl']; subst. simpl in He.
    apply IH; [| |exact Hl'].
    - destruct (is_load e) eqn:Hload.
      + destruct e; try discriminate. simpl. destruct (V1.mounted s); [exact He | exact Hs].
      + destruct (step_log ch s e Hload) as [->|(d & Hd & _ & ->)]; [exact Hs|].
        now apply objects_app.
    - destruct (step_handlers ch s e) as [->|(c & ->)]; [exact Henv|].
      constructor; [exact Hs | exact Henv]. }
  intros Hl. apply H; [constructor | constructor | exact Hl].
Qed.

Lemma log_holds_objects_witness :
  loads_hold_objects
    [(general, V1.Commit); (general, V1.QueryData [m1]);
     (lit "random", V1.Frame 0 (message_frame stub)); (lit "random", V1.Commit)]
  /\ objects
       (V1.messages
          (run_any V1.init
             [(general, V1.Commit); (general, V1.QueryData [m1]);
              (lit "random", V1.Frame 0 (message_frame stub)); (lit "random", V1.Commit)])).
Proof.
  assert (H : loads_hold_objects
                [(general, V1.Commit); (general, V1.QueryData [m1]);
                 (lit "random", V1.Frame 0 (message_frame stub)); (lit "random", V1.Commit)]).
  { repeat constructor. }
  split; [exact H|].
  destruct (log_holds_objects
              [(general, V1.Commit); (general, V1.QueryData [m1]);
               (lit "random", V1.Frame 0 (message_frame stub)); (lit "random", V1.Commit)] H)
    as [Hobj _].
  exact Hobj.
Defined.

(** ** More on the connection of the first version *)

(** At every point of every run at most one reconnect timer is pending, and
    it is the 5000 ms one; while it is pending no connection exists. *)
Theorem one_pending_timer (ch : jsstring) (trace : list V1.event) :
  let s := V1.run ch V1.init trace in
  (V1.timers s = [] \/ V1.timers s = [5000])
  /\ (V1.timers s <> [] -> V1.connections s = []).
Proof.
  intros s. destruct (Inv_run ch trace V1.init Inv_init) as [_ _ _ _ _ _ I7].
  fold s in I7. destruct I7 as [Ht|(Ht & Hn & _)]; rewrite Ht.
  - split; [now left | intros H; now elim H].
  - split; [now right | intros _; exact Hn].
Qed.

(** The compose form follows the connection: the input and the button are
    disabled together, only while no connection exists; with a connection
    the form is enabled and asks for a message. *)
Theorem form_follows_connection (ch : jsstring) (trace : list V1.event) :
  let s := V1.run ch V1.init trace in
  button_disabled (render_form s) = input_disabled (render_form s)
  /\ (input_disabled (render_form s) = true -> V1.connections s = [])
  /\ (V1.connections s <> [] ->
      input_disabled (render_form s) = false
      /\ input_placeholder (render_form s) = lit "Write a message...").
Proof.
  intros s. destruct (Inv_run ch trace V1.init Inv_init) as [_ _ I3 _ _ _ _].
  fold s in I3. unfold render_form; simpl. split; [reflexivity|].
  destruct I3 as [Hn|(c & Hn & _ & Hw & _)].
  - split; [auto | intros H; now elim H].
  - rewrite Hw. split; [discriminate | auto].
Qed.

(** While the page waits to reconnect, an event other than the timer keeps
    it waiting and makes no socket. *)
Lemma step_while_waiting (ch : jsstring) (s : V1.state) (e : V1.event) :
  V1.waitingToReconnect s = true -> is_timeout e = false ->
  V1.waitingToReconnect (V1.step ch s e) = true
  /\ V1.next_socket (V1.step ch s e) = V1.next_socket s.
Proof.
  intros Hw He. destruct e as [|data|text| |c parsed|c|c| |]; try discriminate; simpl.
  - destruct (V1.mounted s); [|auto].
    unfold V1.message_effect, V1.socket_effect, V1.effect_body, V1.run_cleanup,
      V1.controlled_input; simpl.
    destruct (V1.deps s) as [d|]; [destruct (Bool.eqb d (V1.waitingToReconnect s))|];
      rewrite ?Hw; simpl.
    + destruct (V1.wsClient s); simpl; auto.
    + destruct (V1.cleanup s); simpl; rewrite ?Hw; simpl.
      * destruct (V1.mem _ _); simpl; rewrite ?Hw; simpl; auto.
      * destruct (V1.wsClient s); simpl; auto.
    + destruct (V1.wsClient s); simpl; auto.
  - destruct (V1.mounted s); auto.
  - destruct (V1.mounted s); auto.
  - destruct (V1.mounted s); [|auto]. unfold V1.sendMessage.
    destruct (str_eqb _ _); auto.
  - destruct (V1.mem c (V1.connections s)); [|auto].
    unfold V1.fire_message. destruct (V1.assoc c (V1.onmessage_env s)) as [captured|]; [|auto].
    destruct (V1.onmessage ch captured parsed s) as [s'|err] eqn:E; [|auto].
    destruct (onmessage_result ch captured parsed s s' E) as [->|(d & _ & _ & ->)]; auto.
  - destruct (V1.mem c (V1.connections s)); [|auto].
    unfold V1.fire_close, V1.onclose; simpl. all_paths; auto.
  - destruct (V1.mem c (V1.closing s)); [|auto].
    unfold V1.fire_close, V1.onclose; simpl. all_paths; auto.
  - destruct (V1.mounted s); [|auto]. unfold V1.run_cleanup. all_paths; auto.
Qed.

Lemma run_while_waiting (ch : jsstring) (after : list V1.event) :
  forall s, V1.waitingToReconnect s = true -> Inv s ->
  forallb (fun e => negb (is_timeout e)) after = true ->
  V1.waitingToReconnect (V1.run ch s after) = true
  /\ V1.next_socket (V1.run ch s after) = V1.next_socket s
  /\ Inv (V1.run ch s after).
Proof.
  induction after as [|e after IH]; intros s Hw HI Hno; simpl; [auto|].
  apply andb_true_iff in Hno as [He Hno]. apply negb_true_iff in He.
  destruct (step_while_waiting ch s e Hw He) as [Hw1 Hn1].
  destruct (IH (V1.step ch s e) Hw1 (Inv_step ch s e HI) Hno) as (Hw' & Hn' & HI').
  split; [exact Hw'|]. split; [congruence | exact HI'].
Qed.

(** The reconnect delay is kept: from a reachable state in which the page
    waits to reconnect, whatever happens before the timer fires, renders and
    frames and closes included, no connection exists and no socket is
    made. *)
Theorem no_reconnect_before_timer (ch : jsstring) (before after : list V1.event) :
  let s := V1.run ch V1.init before in
  V1.waitingToReconnect s = true ->
  forallb (fun e => negb (is_timeout e)) after = true ->
  let s' := V1.run ch s after in
  V1.connections s' = []
  /\ V1.next_socket s' = V1.next_socket s
  /\ V1.waitingToReconnect s' = true.
Proof.
  intros s Hw Hno. cbv zeta.
  assert (HI : Inv s) by (apply Inv_run, Inv_init).
  destruct (run_while_waiting ch after s Hw HI Hno) as (Hw' & Hn' & [_ _ I3 _ _ _ _]).
  split; [|auto].
  destruct I3 as [|(c & _ & _ & Hf & _)]; [assumption | congruence].
Qed.

Lemma no_reconnect_before_timer_witness :
  V1.waitingToReconnect (V1.run general V1.init [V1.Commit; V1.ServerClose 0]) = true
  /\ forallb (fun e => negb (is_timeout e)) [V1.Commit; V1.Commit; V1.Submit] = true
  /\ V1.connections
       (V1.run general (V1.run general V1.init [V1.Commit; V1.ServerClose 0])
          [V1.Commit; V1.Commit; V1.Submit]) = [].
Proof.
  assert (H : V1.waitingToReconnect
                (V1.run general V1.init [V1.Commit; V1.ServerClose 0]) = true)
    by (vm_compute; reflexivity).
  split; [exact H|]. split; [reflexivity|].
  destruct (no_reconnect_before_timer general [V1.Commit; V1.ServerClose 0]
              [V1.Commit; V1.Commit; V1.Submit] H eq_refl) as (Hn & _).
  exact Hn.
Defined.

(** Once unmounted, an event changes none of these. *)
Lemma step_unmounted (ch : jsstring) (s : V1.state) (e : V1.event) :
  V1.mounted s = false -> V1.connections s = [] -> V1.wsInstance s = None ->
  let s' := V1.step ch s e in
  V1.mounted s' = false /\ V1.connections s' = [] /\ V1.wsInstance s' = None
  /\ V1.messages s' = V1.messages s /\ V1.message s' = V1.message s
  /\ V1.mutations s' = V1.mutations s
  /\ V1.waitingToReconnect s' = V1.waitingToReconnect s
  /\ V1.next_socket s' = V1.next_socket s.
Proof.
  intros Hm Hn Hi. destruct e as [|data|text| |c parsed|c|c| |]; simpl;
    rewrite ?Hm, ?Hn; simpl; auto 10.
  - destruct (V1.mem c (V1.closing s)); [|auto 10].
    unfold V1.fire_close, V1.onclose; simpl. rewrite Hi.
    destruct (V1.assoc c (V1.onclose_env s)); simpl; auto 10.
  - destruct (V1.timers s); simpl; rewrite ?Hm; auto 10.
Qed.

Lemma run_unmounted (ch : jsstring) (after : list V1.event) :
  forall s, V1.mounted s = false -> V1.connections s = [] -> V1.wsInstance s = None ->
  let s' := V1.run ch s after in
  V1.connections s' = [] /\ V1.wsInstance s' = None
  /\ V1.next_socket s' = V1.next_socket s
  /\ V1.messages s' = V1.messages s /\ V1.message s' = V1.message s
  /\ V1.mutations s' = V1.mutations s
  /\ V1.waitingToReconnect s' = V1.waitingToReconnect s.
Proof.
  induction after as [|e after IH]; intros s Hm Hn Hi; simpl; [auto 10|].
  destruct (step_unmounted ch s e Hm Hn Hi) as (Hm1 & Hn1 & Hi1 & E1 & E2 & E3 & E4 & E5).
  destruct (IH (V1.step ch s e) Hm1 Hn1 Hi1) as (F1 & F2 & F3 & F4 & F5 & F6 & F7).
  repeat split; congruence.
Qed.

(** After the page unmounted nothing that follows, frames, closes, timers
    or renders, opens a socket, touches the log, the composed text or the
    reconnect flag, or issues a call. *)
Theorem unmounted_page_is_inert (ch : jsstring) (before after : list V1.event) :
  let s := V1.run ch V1.init (before ++ [V1.Unmount]) in
  let s' := V1.run ch s after in
  V1.connections s' = [] /\ V1.wsInstance s' = None
  /\ V1.next_socket s' = V1.next_socket s
  /\ V1.messages s' = V1.messages s /\ V1.message s' = V1.message s
  /\ V1.mutations s' = V1.mutations s
  /\ V1.waitingToReconnect s' = V1.waitingToReconnect s.
Proof.
  intros s. cbv zeta.
  assert (HI : Inv s) by (apply Inv_run, Inv_init).
  assert (Hm : V1.mounted s = false).
  { unfold s, V1.run. rewrite fold_left_app. simpl.
    destruct (V1.mounted (fold_left (V1.step ch) before V1.init)) eqn:E; [reflexivity | exact E]. }
  destruct HI as [_ _ I3 _ _ I6 _].
  assert (Hn : V1.connections s = []).
  { destruct I3 as [|(c & _ & _ & _ & Hm' & _)]; [assumption | congruence]. }
  exact (run_unmounted ch after s Hm Hn (I6 Hm)).
Qed.

(** ** More on sending in the first version *)

(** One event leaves the issued calls as they are, or it is a submit of
    non-blank text and adds the call for it. *)
Lemma step_mutations (ch : jsstring) (s : V1.state) (e : V1.event) :
  V1.mutations (V1.step ch s e) = V1.mutations s
  \/ (e = V1.Submit /\ trim (V1.message s) <> lit ""
      /\ V1.mutations (V1.step ch s e) = V1.mutations s ++ [(ch, V1.message s)]).
Proof.
  destruct e as [|data|text| |c parsed|c|c| |]; simpl.
  - left. destruct (V1.mounted s); [|reflexivity].
    unfold V1.message_effect, V1.socket_effect, V1.effect_body, V1.run_cleanup.
    all_paths; reflexivity.
  - left. now destruct (V1.mounted s).
  - left. now destruct (V1.mounted s).
  - destruct (V1.mounted s); [|now left]. unfold V1.sendMessage.
    destruct (str_eqb (trim (V1.message s)) (lit "")) eqn:E; [now left|].
    right. split; [reflexivity|]. split; [|reflexivity].
    intros H. rewrite H in E. discriminate.
  - left. destruct (V1.mem c (V1.connections s)); [|reflexivity].
    unfold V1.fire_message. destruct (V1.assoc c (V1.onmessage_env s)) as [captured|]; [|reflexivity].
    destruct (V1.onmessage ch captured parsed s) as [s'|err] eqn:E; [|reflexivity].
    destruct (onmessage_result ch captured parsed s s' E) as [->|(d & _ & _ & ->)]; reflexivity.
  - left. destruct (V1.mem c (V1.connections s)); [|reflexivity].
    unfold V1.fire_close, V1.onclose; simpl. all_paths; reflexivity.
  - left. destruct (V1.mem c (V1.closing s)); [|reflexivity].
    unfold V1.fire_close, V1.onclose; simpl. all_paths; reflexivity.
  - left. destruct (V1.timers s); [reflexivity|]. simpl. now destruct (V1.mounted s).
  - left. destruct (V1.mounted s); [|reflexivity]. unfold V1.run_cleanup.
    all_paths; reflexivity.
Qed.

Lemma run_mutations (ch : jsstring) (trace : list V1.event) :
  forall s,
  exists added,
    V1.mutations (V1.run ch s trace) = V1.mutations s ++ added
    /\ Forall (fun call => fst call = ch /\ trim (snd call) <> lit "") added
    /\ (List.length added <= List.length (filter is_submit trace))%nat.
Proof.
  induction trace as [|e trace IH]; intros s; simpl.
  - exists []. rewrite app_nil_r. split; [reflexivity|]. split; [constructor | simpl; lia].
  - destruct (IH (V1.step ch s e)) as (added & Heq & Hall & Hlen).
    destruct (step_mutations ch s e) as [Hs|(-> & Hne & Hs)]; rewrite Hs in Heq.
    + exists added. split; [exact Heq|]. split; [exact Hall|].
      destruct (is_submit e); simpl; lia.
    + exists ((ch, V1.message s) :: added). rewrite <- app_assoc in Heq.
      split; [exact Heq|]. split; [constructor; auto | simpl; lia].
Qed.

(** Whatever happens, every [createMessage] call the first version issues
    carries this channel's id and a content that is not blank, and there
    are no more calls than submits. *)
Theorem calls_are_submitted_text (ch : jsstring) (trace : list V1.event) :
  Forall (fun call => fst call = ch /\ trim (snd call) <> lit "")
    (V1.mutations (V1.run ch V1.init trace))
  /\ (List.length (V1.mutations (V1.run ch V1.init trace))
      <= List.length (filter is_submit trace))%nat.
Proof.
  destruct (run_mutations ch trace V1.init) as (added & Heq & Hall & Hlen).
  rewrite Heq. simpl. split; assumption.
Qed.

(** One event that is not an edit or a submit keeps the composed text. *)
Lemma step_message (ch : jsstring) (s : V1.state) (e : V1.event) :
  is_input e = false -> V1.message (V1.step ch s e) = V1.message s.
Proof.
  intros He. destruct e as [|data|text| |c parsed|c|c| |]; try discriminate; simpl.
  - destruct (V1.mounted s); [|reflexivity].
    unfold V1.message_effect, V1.socket_effect, V1.effect_body, V1.run_cleanup.
    all_paths; reflexivity.
  - now destruct (V1.mounted s).
  - destruct (V1.mem c (V1.connections s)); [|reflexivity].
    unfold V1.fire_message. destruct (V1.assoc c (V1.onmessage_env s)) as [captured|]; [|reflexivity].
    destruct (V1.onmessage ch captured parsed s) as [s'|err] eqn:E; [|reflexivity].
    destruct (onmessage_result ch captured parsed s s' E) as [->|(d & _ & _ & ->)]; reflexivity.
  - destruct (V1.mem c (V1.connections s)); [|reflexivity].
    unfold V1.fire_close, V1.onclose; simpl. all_paths; reflexivity.
  - destruct (V1.mem c (V1.closing s)); [|reflexivity].
    unfold V1.fire_close, V1.onclose; simpl. all_paths; reflexivity.
  - destruct (V1.timers s); [reflexivity|]. simpl. now destruct (V1.mounted s).
  - destruct (V1.mounted s); [|reflexivity]. unfold V1.run_cleanup.
    all_paths; reflexivity.
Qed.

Lemma run_keeps_draft (ch : jsstring) (trace : list V1.event) :
  forall s, forallb (fun e => negb (is_input e)) trace = true ->
  V1.message (V1.run ch s trace) = V1.message s
  /\ V1.mutations (V1.run ch s trace) = V1.mutations s.
Proof.
  induction trace as [|e trace IH]; intros s Hno; simpl; [auto|].
  apply andb_true_iff in Hno as [He Hno]. apply negb_true_iff in He.
  destruct (IH (V1.step ch s e) Hno) as [H1 H2].
  rewrite H1, H2. split; [now apply step_message|].
  destruct (step_mutations ch s e) as [Hs|(-> & _)]; [exact Hs | discriminate].
Qed.

(** The composed text is the user's alone: renders, loads, frames, drops,
    closes, timers and unmounting, in any number and order, leave the
    [message] state and the issued calls as they were. *)
Theorem draft_survives (ch : jsstring) (trace : list V1.event) (s : V1.state) :
  forallb (fun e => negb (is_input e)) trace = true ->
  V1.message (V1.run ch s trace) = V1.message s
  /\ V1.mutations (V1.run ch s trace) = V1.mutations s.
Proof. exact (run_keeps_draft ch trace s). Qed.

Lemma draft_survives_witness :
  forallb (fun e => negb (is_input e))
    [V1.ServerClose 0; V1.Commit; V1.Timeout; V1.Commit] = true
  /\ V1.message
       (V1.run general (V1.run general V1.init [V1.Commit; V1.Typed (lit "hi")])
          [V1.ServerClose 0; V1.Commit; V1.Timeout; V1.Commit])
     = V1.message (V1.run general V1.init [V1.Commit; V1.Typed (lit "hi")]).
Proof.
  split; [reflexivity|].
  destruct (draft_survives general [V1.ServerClose 0; V1.Commit; V1.Timeout; V1.Commit]
              (V1.run general V1.init [V1.Commit; V1.Typed (lit "hi")]) eq_refl) as [H _].
  exact H.
Defined.

(** ** More on trimming *)

Lemma trimStart_split (s : jsstring) :
  exists pre, s = pre ++ trimStart s /\ forallb isWhiteSpace pre = true.
Proof.
  induction s as [|c s (pre & Heq & Hpre)]; simpl; [now exists []|].
  destruct (isWhiteSpace c) eqn:Hc.
  - exists (c :: pre). simpl. rewrite Hc, Hpre. split; [now f_equal | reflexivity].
  - now exists [].
Qed.

Lemma trimStart_head (s : jsstring) :
  match trimStart s with [] => True | c :: _ => isWhiteSpace c = false end.
Proof.
  induction s as [|c s IH]; simpl; [exact I|].
  destruct (isWhiteSpace c) eqn:Hc; [exact IH | exact Hc].
Qed.

Lemma forallb_rev (f : N -> bool) (l : list N) :
  forallb f l = true -> forallb f (rev l) = true.
Proof.
  rewrite !forallb_forall. intros H x Hx. apply H. now apply in_rev.
Qed.

Lemma trimEnd_split (t : jsstring) :
  exists post, t = trimEnd t ++ post /\ forallb isWhiteSpace post = true.
Proof.
  unfold trimEnd. destruct (trimStart_split (rev t)) as (pre & Heq & Hpre).
  exists (rev pre). split; [|now apply forallb_rev].
  rewrite <- rev_app_distr, <- Heq. now rewrite rev_involutive.
Qed.

(** [s.trim()] is [s] without a blank prefix and a blank suffix, and it
    neither starts nor ends with white space. *)
Lemma trim_split (s : jsstring) :
  exists pre post,
    s = pre ++ trim s ++ post
    /\ forallb isWhiteSpace pre = true /\ forallb isWhiteSpace post = true
    /\ isWhiteSpace (hd 0%N (trim s)) = false
    /\ isWhiteSpace (last (trim s) 0%N) = false.
Proof.
  destruct (trimStart_split s) as (pre & Hs & Hpre).
  destruct (trimEnd_split (trimStart s)) as (post & Hu & Hpost).
  exists pre, post. unfold trim. split; [now rewrite <- Hu|].
  split; [exact Hpre|]. split; [exact Hpost|]. split.
  - pose proof (trimStart_head s) as Hh.
    destruct (trimEnd (trimStart s)) as [|c r] eqn:E; [reflexivity|]. simpl.
    rewrite Hu in Hh. exact Hh.
  - pose proof (trimStart_head (rev (trimStart s))) as Hl.
    unfold trimEnd. destruct (trimStart (rev (trimStart s))) as [|c r]; [reflexivity|].
    simpl. rewrite last_last. exact Hl.
Qed.

(** ** More on the pending refs of the second version *)

Lemma strict_eq_ref (r : option jsstring) (v : value) :
  strict_eq (V2.ref_value r) v = true <-> v = V2.ref_value r.
Proof.
  destruct r as [x|], v; simpl; try (split; [discriminate | congruence]);
    try (split; reflexivity).
  rewrite str_eqb_eq. split; congruence.
Qed.

(** The callback clears the pending refs exactly when it is given the
    pending nonce: any other nonce, [undefined] included, leaves the state
    as it is; and it never touches the log or the issued calls. *)
Theorem callback_clears_on_match (msg : V2.MessageType) (nonce : value) (s : V2.state) :
  (nonce = V2.ref_value (V2.pendingNonce s) ->
   V2.pendingMessage (V2.nonceCallback msg nonce s) = None
   /\ V2.pendingNonce (V2.nonceCallback msg nonce s) = None)
  /\ (nonce <> V2.ref_value (V2.pendingNonce s) -> V2.nonceCallback msg nonce s = s)
  /\ V2.messages (V2.nonceCallback msg nonce s) = V2.messages s
  /\ V2.mutations (V2.nonceCallback msg nonce s) = V2.mutations s.
Proof.
  unfold V2.nonceCallback.
  destruct (strict_eq (V2.ref_value (V2.pendingNonce s)) nonce) eqn:E.
  - apply strict_eq_ref in E. split; [auto|]. split; [|auto].
    intros Hne. contradiction.
  - split; [|auto]. intros Heq. apply strict_eq_ref in Heq. congruence.
Qed.

Lemma refs_agree_step (ch : jsstring) (user : option V2.SessionUser)
    (s : V2.state) (op : ref_op) :
  refs_agree ch s -> refs_agree ch (ref_step ch user s op).
Proof.
  intros Hs. destruct op as [msg now uuid|msg nonce|failed]; simpl; [| |exact Hs].
  - unfold V2.sendMessage.
    destruct (str_eqb (trim msg) (lit "")) eqn:E; [exact Hs|].
    destruct user as [user|]; [|exact Hs].
    unfold refs_agree. simpl. split; [reflexivity|]. split; [reflexivity|].
    exists (V2.mutations s), (V2.mkCreateMessage ch msg uuid). simpl.
    repeat split. intros H. rewrite H in E. discriminate.
  - unfold V2.nonceCallback.
    destruct (strict_eq _ nonce); [exact I | exact Hs].
Qed.

(** However sends, callback calls and settled calls interleave, the two
    pending refs are set and cleared together, and a pending entry is always
    the one of the last [createMessage] call: no id, this channel, that
    call's nonce, and that call's content trimmed, which is not empty. *)
Theorem pending_refs_agree (ch : jsstring) (user : option V2.SessionUser)
    (ops : list ref_op) :
  refs_agree ch (ref_run ch user V2.init ops).
Proof.
  unfold ref_run.
  assert (H : forall s, refs_agree ch s -> refs_agree ch (fold_left (ref_step ch user) ops s)).
  { induction ops as [|op ops IH]; intros s Hs; simpl; [exact Hs|].
    apply IH, refs_agree_step, Hs. }
  apply H. exact I.
Qed.

(** The optimistic entry shows what was typed without its leading and
    trailing white space, while the call carries the text as typed. *)
Theorem pending_shows_trimmed_text (ch : jsstring) (user : V2.SessionUser)
    (msg : jsstring) (now : Z) (uuid : jsstring) (s : V2.state) :
  trim msg <> lit "" ->
  let s' := V2.step ch (Some user) s (V2.Send msg now uuid) in
  exists m pre post,
    V2.pendingMessage s' = Some m
    /\ msg = pre ++ V2.content m ++ post
    /\ forallb isWhiteSpace pre = true /\ forallb isWhiteSpace post = true
    /\ isWhiteSpace (hd 0%N (V2.content m)) = false
    /\ isWhiteSpace (last (V2.content m) 0%N) = false
    /\ V2.mutations s' = V2.mutations s ++ [V2.mkCreateMessage ch msg uuid].
Proof.
  intros Hmsg. simpl. rewrite (sendMessage_accepts ch user msg now uuid s Hmsg).
  destruct (trim_split msg) as (pre & post & Heq & Hpre & Hpost & Hhd & Hlast).
  eexists. exists pre, post. simpl. split; [reflexivity|]. simpl. auto 10.
Qed.

Lemma pending_shows_trimmed_text_witness :
  trim (lit "  hi ") <> lit ""
  /\ exists m pre post,
       V2.pendingMessage
         (V2.step general (Some alice_user) V2.init (V2.Send (lit "  hi ") 2 (lit "n1")))
       = Some m
       /\ lit "  hi " = pre ++ V2.content m ++ post
       /\ forallb isWhiteSpace pre = true /\ forallb isWhiteSpace post = true
       /\ isWhiteSpace (hd 0%N (V2.content m)) = false
       /\ isWhiteSpace (last (V2.content m) 0%N) = false
       /\ V2.mutations
            (V2.step general (Some alice_user) V2.init (V2.Send (lit "  hi ") 2 (lit "n1")))
          = V2.mutations V2.init ++ [V2.mkCreateMessage general (lit "  hi ") (lit "n1")].
Proof.
  assert (H : trim (lit "  hi ") <> lit "") by discriminate.
  split; [exact H|].
  exact (pending_shows_trimmed_text general alice_user (lit "  hi ") 2 (lit "n1") V2.init H).
Defined.

(** ** More on the server side *)

(** The first version's [getServerSideProps] answers every request as it
    answers one without a session: its result does not depend on the
    session at all; and the props it returns are the channel [findUnique]
    found for [params.id]. *)
Theorem first_version_ignores_session
    (Request Session TextChannel : Type)
    (resolveSession resolveSession' : Request -> option Session)
    (findUnique : value -> option TextChannel)
    (reserialize : TextChannel -> TextChannel)
    (req : Request) (params : option (list (jsstring * value))) :
  V1.getServerSideProps resolveSession findUnique reserialize req params
  = V1.getServerSideProps resolveSession' findUnique reserialize req params
  /\ (forall channel,
        V1.getServerSideProps resolveSession findUnique reserialize req params
        = Normal (Props channel) ->
        exists ps found,
          params = Some ps /\ findUnique (lookup (lit "id") ps) = Some found
          /\ channel = reserialize found).
Proof.
  unfold V1.getServerSideProps. split; [reflexivity|].
  destruct params as [ps|]; simpl; [|discriminate].
  destruct (findUnique (lookup (lit "id") ps)) as [found|] eqn:E; [|discriminate].
  intros channel [= <-]. eauto.
Qed.

(** The second version's [getServerSideProps] hands out props only to a
    request that has a session, for the channel [findUnique] found for
    [params.channelId], with [params.id] as the server id and no message
    link; and it answers "not found" only to a request with a session. *)
Theorem second_version_guards_props
    (Request Session TextChannel : Type)
    (resolveSession : Request -> option Session)
    (findUnique : value -> option TextChannel)
    (reserialize : TextChannel -> TextChannel)
    (req : Request) (params : option (list (jsstring * value))) :
  (forall props,
     V2.getServerSideProps resolveSession findUnique reserialize req params
     = Normal (Props props) ->
     resolveSession req <> None
     /\ exists ps found,
          params = Some ps
          /\ findUnique (lookup (lit "channelId") ps) = Some found
          /\ props = V2.mkServerProps (reserialize found) (lookup (lit "id") ps) None)
  /\ (V2.getServerSideProps resolveSession findUnique reserialize req params
      = Normal NotFound ->
      resolveSession req <> None).
Proof.
  unfold V2.getServerSideProps. simpl.
  destruct (resolveSession req) as [session|], params as [ps|]; simpl;
    try (split; [discriminate | discriminate]).
  destruct (findUnique (lookup (lit "channelId") ps)) as [found|] eqn:E.
  - split; [|discriminate].
    intros props [= <-]. split; [discriminate | eauto].
  - split; [discriminate | intros _; discriminate].
Qed.

(** ** Loads and sockets of the first version *)

Lemma step_mounted (ch : jsstring) (s : V1.state) (e : V1.event) :
  is_unmount e = false -> V1.mounted (V1.step ch s e) = V1.mounted s.
Proof.
  intros He. destruct e as [|data|text| |c parsed|c|c| |]; try discriminate; simpl.
  - destruct (V1.mounted s) eqn:Hm; [|exact Hm].
    unfold V1.message_effect, V1.socket_effect, V1.effect_body, V1.run_cleanup.
    all_paths; exact Hm.
  - destruct (V1.mounted s) eqn:Hm; simpl; exact Hm.
  - destruct (V1.mounted s) eqn:Hm; simpl; exact Hm.
  - destruct (V1.mounted s) eqn:Hm; [|exact Hm]. unfold V1.sendMessage.
    destruct (str_eqb _ _); simpl; exact Hm.
  - destruct (V1.mem c (V1.connections s)); [|reflexivity].
    unfold V1.fire_message. destruct (V1.assoc c (V1.onmessage_env s)) as [captured|]; [|reflexivity].
    destruct (V1.onmessage ch captured parsed s) as [s'|err] eqn:E; [|reflexivity].
    destruct (onmessage_result ch captured parsed s s' E) as [->|(d & _ & _ & ->)]; reflexivity.
  - destruct (V1.mem c (V1.connections s)); [|reflexivity].
    unfold V1.fire_close, V1.onclose; simpl. all_paths; reflexivity.
  - destruct (V1.mem c (V1.closing s)); [|reflexivity].
    unfold V1.fire_close, V1.onclose; simpl. all_paths; reflexivity.
  - destruct (V1.timers s); [reflexivity|]. simpl.
    destruct (V1.mounted s) eqn:Hm; simpl; exact Hm.
Qed.

(** A fetched list replaces the log whole: while the page is mounted, after
    [loadMessagesQuery.data] arrives the log is that list, the empty list
    included, whatever the frames had put in the log before. *)
Theorem load_replaces_log (ch : jsstring) (trace : list V1.event) (data : list value) :
  forallb (fun e => negb (is_unmount e)) trace = true ->
  V1.messages (V1.run ch V1.init (trace ++ [V1.QueryData data])) = data.
Proof.
  intros Hno. unfold V1.run. rewrite fold_left_app. simpl.
  assert (Hm : forall s, V1.mounted s = true ->
                         V1.mounted (fold_left (V1.step ch) trace s) = true).
  { induction trace as [|e trace IH]; intros s Hs; simpl; [exact Hs|].
    simpl in Hno. apply andb_true_iff in Hno as [He Hno]. apply negb_true_iff in He.
    apply IH; [exact Hno|]. now rewrite step_mounted. }
  now rewrite (Hm V1.init eq_refl).
Qed.

Lemma load_replaces_log_witness :
  forallb (fun e => negb (is_unmount e)) [V1.Commit; V1.Frame 0 (message_frame m1)] = true
  /\ V1.messages
       (V1.run general V1.init
          ([V1.Commit; V1.Frame 0 (message_frame m1)] ++ [V1.QueryData []]))
     = [].
Proof.
  split; [reflexivity|].
  exact (load_replaces_log general [V1.Commit; V1.Frame 0 (message_frame m1)] [] eq_refl).
Defined.

(** Destructs the variables, memberships and handler lookups a goal tests,
    innermost first, so that tests of one field agree. *)
Ltac var_paths :=
  repeat match goal with
         | |- context [match ?x with _ => _ end] => is_var x; destruct x; simpl
         | |- context [V1.mem ?a ?b] => destruct (V1.mem a b); simpl
         | |- context [V1.assoc ?a ?b] => destruct (V1.assoc a b); simpl
         end.

(** One event makes at most one socket, and only by spending the chance
    that a fired timer, or the first render, gave. *)
Lemma step_sockets (ch : jsstring) (s : V1.state) (e : V1.event) :
  (V1.next_socket (V1.step ch s e) + may_connect (V1.step ch s e)
   <= V1.next_socket s + may_connect s + if is_timeout e then 1 else 0)%nat.
Proof.
  unfold may_connect.
  destruct s as [m ms w wc wi ome oce cl dp mo co cg ti tx cs uc ns mu].
  assert (Hsame : (ns + match dp with
                        | None => 1
                        | Some true => if w then 0 else 1
                        | Some false => 0
                        end
                   <= ns + match dp with
                          | None => 1
                          | Some true => if w then 0 else 1
                          | Some false => 0
                          end + if is_timeout e then 1 else 0)%nat) by lia.
  destruct e as [|data|text| |c parsed|c|c| |]; simpl in *.
  - destruct mo; [|exact Hsame].
    unfold V1.message_effect, V1.socket_effect, V1.effect_body, V1.run_cleanup; simpl.
    clear Hsame. destruct dp as [[|]|], w; simpl; var_paths; lia.
  - destruct mo; simpl; exact Hsame.
  - destruct mo; simpl; exact Hsame.
  - destruct mo; [|exact Hsame]. unfold V1.sendMessage; simpl.
    destruct (str_eqb _ _); simpl; exact Hsame.
  - destruct (V1.mem c co); [|exact Hsame].
    unfold V1.fire_message; simpl. destruct (V1.assoc c ome) as [captured|]; [|exact Hsame].
    match goal with
    | |- context [V1.onmessage ch captured parsed ?st] =>
        destruct (V1.onmessage ch captured parsed st) as [s'|err] eqn:E;
        [|simpl; exact Hsame];
        destruct (onmessage_result ch captured parsed st s' E) as [->|(d & _ & _ & ->)];
        simpl; exact Hsame
    end.
  - destruct (V1.mem c co); [|exact Hsame].
    unfold V1.fire_close, V1.onclose; simpl.
    clear Hsame. destruct dp as [[|]|], w; var_paths; lia.
  - destruct (V1.mem c cg); [|exact Hsame].
    unfold V1.fire_close, V1.onclose; simpl.
    clear Hsame. destruct dp as [[|]|], w; var_paths; lia.
  - clear Hsame. destruct ti; simpl; destruct mo; simpl; destruct dp as [[|]|], w; lia.
  - destruct mo; [|exact Hsame]. unfold V1.run_cleanup; simpl.
    clear Hsame. destruct dp as [[|]|], w; var_paths; lia.
Qed.

(** No reconnect storm: whatever the events, the page makes at most one
    socket for its first render and one for every timer that fired. *)
Theorem sockets_bounded_by_timers (ch : jsstring) (trace : list V1.event) :
  (V1.next_socket (V1.run ch V1.init trace)
   <= 1 + List.length (filter is_timeout trace))%nat.
Proof.
  assert (H : forall s,
             (V1.next_socket (V1.run ch s trace) + may_connect (V1.run ch s trace)
              <= V1.next_socket s + may_connect s + List.length (filter is_timeout trace))%nat).
  { induction trace as [|e trace IH]; intros s; simpl; [lia|].
    specialize (IH (V1.step ch s e)). pose proof (step_sockets ch s e) as Hs.
    destruct (is_timeout e); simpl; lia. }
  specialize (H V1.init). unfold may_connect at 2 in H. simpl in H. lia.
Qed.

(** ** The rendered list of the second version *)

(** At most one element is rendered as pending, and it comes after the
    whole log. *)
Theorem pending_is_rendered_last (s : V2.state) :
  (List.length (filter V2.pending (V2.rendered s)) <= 1)%nat
  /\ (forall i props,
        nth_error (V2.rendered s) i = Some props -> V2.pending props = true ->
        i = List.length (V2.messages s) /\ V2.pendingMessage s = Some (V2.shown props))
  /\ firstn (List.length (V2.messages s)) (V2.rendered s)
     = map (V2.mkProps false) (V2.messages s).
Proof.
  unfold V2.rendered.
  assert (Hf : forall l, filter V2.pending (map (V2.mkProps false) l) = []).
  { induction l as [|m l IH]; simpl; [reflexivity | exact IH]. }
  split; [|split].
  - rewrite filter_app, Hf. destruct (V2.pendingMessage s); simpl; lia.
  - intros i props Hn Hp.
    destruct (Nat.lt_ge_cases i (List.length (map (V2.mkProps false) (V2.messages s))))
      as [Hlt|Hge].
    + rewrite nth_error_app1 in Hn by exact Hlt.
      apply nth_error_In, in_map_iff in Hn as (m & <- & _). discriminate.
    + rewrite nth_error_app2 in Hn by exact Hge. rewrite length_map in *.
      destruct (V2.pendingMessage s) as [m|]; simpl in Hn.
      * destruct (i - List.length (V2.messages s))%nat as [|k] eqn:Hk; simpl in Hn.
        -- injection Hn as <-. split; [lia | reflexivity].
        -- destruct k; discriminate.
      * destruct (i - List.length (V2.messages s))%nat; discriminate.
  - rewrite <- (length_map (V2.mkProps false) (V2.messages s)) at 1.
    rewrite firstn_app, firstn_all, Nat.sub_diag. simpl. apply app_nil_r.
Qed.

(** ** The composed text across a connection loss *)

(** The effects of a render leave the element of the input alone. *)
Lemma effects_keep_input (s : V1.state) :
  V1.textInput (V1.message_effect (V1.socket_effect s)) = V1.textInput s.
Proof.
  unfold V1.message_effect, V1.socket_effect, V1.effect_body, V1.run_cleanup.
  all_paths; reflexivity.
Qed.

Lemma run_mounted (ch : jsstring) (trace : list V1.event) :
  forall s, forallb (fun e => negb (is_unmount e)) trace = true ->
  V1.mounted (V1.run ch s trace) = V1.mounted s.
Proof.
  induction trace as [|e trace IH]; intros s Hno; simpl; [reflexivity|].
  apply andb_true_iff in Hno as [He Hno]. apply negb_true_iff in He.
  rewrite (IH _ Hno). now apply step_mounted.
Qed.

(** C6. In every state the first version reaches, when the connection [c]
    drops, nothing unsent is lost: the page waits to reconnect, and through
    whatever follows that is not an edit or a submit of the user (renders,
    the timer, the reconnect, frames, further drops) the composed text in the
    [message] state and the issued [createMessage] calls stay as they were
    before the drop; the log is untouched by the drop; the render the drop
    triggers shows the composed text in the input again; and a submit after
    the reconnect issues the very call a submit before the drop would have
    issued. *)
Theorem drop_keeps_unsent_input (ch : jsstring) (trace after : list V1.event)
    (c : V1.socket) :
  let s := V1.run ch V1.init trace in
  V1.mem c (V1.connections s) = true ->
  forallb (fun e => negb (is_input e)) after = true ->
  let s1 := V1.step ch s (V1.ServerClose c) in
  V1.waitingToReconnect s1 = true
  /\ V1.message (V1.run ch s1 after) = V1.message s
  /\ V1.mutations (V1.run ch s1 after) = V1.mutations s
  /\ V1.messages s1 = V1.messages s
  /\ V1.textInput (V1.step ch s1 V1.Commit) = V1.message s
  /\ V1.mutations
       (V1.step ch (V1.run ch s1 [V1.Commit; V1.Timeout; V1.Commit]) V1.Submit)
     = V1.mutations (V1.sendMessage ch s).
Proof.
  intros s Hc Hno. cbv zeta.
  destruct (drop_keeps_state ch trace c Hc) as (_ & Hmsg & Hlog & Hmut & Hw & Hm).
  fold s in Hmsg, Hlog, Hmut, Hw, Hm.
  remember (V1.step ch s (V1.ServerClose c)) as s1 eqn:E1. clear E1.
  destruct (run_keeps_draft ch after s1 Hno) as [Ha1 Ha2].
  split; [exact Hw|]. split; [congruence|]. split; [congruence|]. split; [exact Hlog|].
  split.
  - cbn [V1.step]. rewrite Hm. rewrite effects_keep_input. simpl. exact Hmsg.
  - destruct (run_keeps_draft ch [V1.Commit; V1.Timeout; V1.Commit] s1 eq_refl) as [Hr1 Hr2].
    pose proof (run_mounted ch [V1.Commit; V1.Timeout; V1.Commit] s1 eq_refl) as Hr3.
    remember (V1.run ch s1 [V1.Commit; V1.Timeout; V1.Commit]) as s2 eqn:E2. clear E2.
    cbn [V1.step]. rewrite Hr3, Hm. unfold V1.sendMessage.
    rewrite Hr1, Hmsg. destruct (str_eqb (trim (V1.message s)) (lit "")); simpl; congruence.
Qed.

Lemma drop_keeps_unsent_input_witness :
  V1.mem 0 (V1.connections (V1.run general V1.init [V1.Commit; V1.Typed (lit "hi")])) = true
  /\ forallb (fun e => negb (is_input e)) [V1.Commit; V1.Timeout; V1.Commit] = true
  /\ V1.message
       (V1.run general
          (V1.step general (V1.run general V1.init [V1.Commit; V1.Typed (lit "hi")])
             (V1.ServerClose 0))
          [V1.Commit; V1.Timeout; V1.Commit])
     = V1.message (V1.run general V1.init [V1.Commit; V1.Typed (lit "hi")])
  /\ V1.textInput
       (V1.step general
          (V1.step general (V1.run general V1.init [V1.Commit; V1.Typed (lit "hi")])
             (V1.ServerClose 0))
          V1.Commit)
     = V1.message (V1.run general V1.init [V1.Commit; V1.Typed (lit "hi")]).
Proof.
  assert (H : V1.mem 0 (V1.connections
                          (V1.run general V1.init [V1.Commit; V1.Typed (lit "hi")])) = true)
    by (vm_compute; reflexivity).
  split; [exact H|]. split; [reflexivity|].
  destruct (drop_keeps_unsent_input general [V1.Commit; V1.Typed (lit "hi")]
              [V1.Commit; V1.Timeout; V1.Commit] 0 H eq_refl)
    as (_ & Hmsg & _ & _ & Hinput & _).
  split; [exact Hmsg | exact Hinput].
Defined.

(** The drop and the reconnect of a page that holds the unsent text "hi":
    the element is empty inside the close handler only, and the submit after
    the reconnect sends "hi". *)
Example reconnect_with_draft :
  V1.textInput (V1.run general V1.init [V1.Commit; V1.Typed (lit "hi"); V1.ServerClose 0])
  = lit ""
  /\ V1.textInput
       (V1.run general V1.init
          [V1.Commit; V1.Typed (lit "hi"); V1.ServerClose 0; V1.Commit])
     = lit "hi"
  /\ V1.mutations
       (V1.run general V1.init
          [V1.Commit; V1.Typed (lit "hi"); V1.ServerClose 0; V1.Commit; V1.Timeout;
           V1.Commit; V1.Submit])
     = [(general, lit "hi")].
Proof. split; [|split]; vm_compute; reflexivity. Qed.
